(** * A shallow embedding of the nestegg 6502 CPU core (src/src/lib.rs,
    src/src/instruction.rs) and the properties of its specification.

    Modelling conventions.
    - [u8], [u16] and [usize] values are [Z]s; wrapping operations
      ([wrapping_add], [wrapping_sub], [overflowing_sub], [<<] on [u8]) are
      written out with [mod].  A plain [+], [+=] or [-] on an unsigned
      integer is checked, as in a debug build (the profile the repository's
      tests run under): an overflow is a panic.
    - [Vec<u8>] memory is a [list Z]; indexing outside it is a panic.
    - [&mut self] methods that return [Result] run in a small state monad
      [M] that threads the [ComputerState] and ends in [ROk], [RErr] (a
      returned [Err]) or [RPanic].  On [RErr] the state reached so far is
      kept, since a caller holding [&mut self] still sees it. *)

From Stdlib Require Import ZArith Lia List String Bool.
Import ListNotations.
Open Scope string_scope.
Open Scope Z_scope.

(** ** Results and the state monad *)

Inductive result (A : Type) : Type :=
| ROk (a : A)
| RErr (e : string)
| RPanic.
Arguments ROk {A} a.
Arguments RErr {A} e.
Arguments RPanic {A}.

(** [pub struct RegisterFile] *)
Record RegisterFile := mkRegisterFile {
  accumulator : Z;
  x : Z;
  y : Z;
  status : Z;
  stack_pointer : Z;
  program_counter : Z
}.

(** [pub struct ComputerState] *)
Record ComputerState := mkComputerState {
  memory : list Z;
  registers : RegisterFile
}.

Definition M (A : Type) : Type := ComputerState -> ComputerState * result A.

Definition ret {A} (a : A) : M A := fun s => (s, ROk a).

Definition bind {A B} (m : M A) (f : A -> M B) : M B :=
  fun s =>
    match m s with
    | (s', ROk a) => f a s'
    | (s', RErr e) => (s', RErr e)
    | (s', RPanic) => (s', RPanic)
    end.

Definition fail {A} (e : string) : M A := fun s => (s, RErr e).
Definition panic {A} : M A := fun s => (s, RPanic).

(** A pure [Result] lifted into [M] ([?] on a [Result] that does not
    touch the state). *)
Definition lift {A} (r : result A) : M A := fun s => (s, r).

Notation "v <- m ;; k" := (bind m (fun v => k))
  (at level 61, m at next level, right associativity).
Notation "m ;; k" := (bind m (fun _ => k))
  (at level 61, right associativity).

Definition get_registers : M RegisterFile := fun s => (s, ROk s.(registers)).

Definition modify_registers (f : RegisterFile -> RegisterFile) : M unit :=
  fun s => (mkComputerState s.(memory) (f s.(registers)), ROk tt).

(** Field updates of a [RegisterFile]. *)
Definition with_accumulator (r : RegisterFile) (v : Z) : RegisterFile :=
  mkRegisterFile v r.(x) r.(y) r.(status) r.(stack_pointer) r.(program_counter).
Definition with_x (r : RegisterFile) (v : Z) : RegisterFile :=
  mkRegisterFile r.(accumulator) v r.(y) r.(status) r.(stack_pointer) r.(program_counter).
Definition with_y (r : RegisterFile) (v : Z) : RegisterFile :=
  mkRegisterFile r.(accumulator) r.(x) v r.(status) r.(stack_pointer) r.(program_counter).
Definition with_status (r : RegisterFile) (v : Z) : RegisterFile :=
  mkRegisterFile r.(accumulator) r.(x) r.(y) v r.(stack_pointer) r.(program_counter).
Definition with_stack_pointer (r : RegisterFile) (v : Z) : RegisterFile :=
  mkRegisterFile r.(accumulator) r.(x) r.(y) r.(status) v r.(program_counter).
Definition with_program_counter (r : RegisterFile) (v : Z) : RegisterFile :=
  mkRegisterFile r.(accumulator) r.(x) r.(y) r.(status) r.(stack_pointer) v.

(** ** Machine integers *)

(** Checked [+] on a [w]-bit unsigned integer: panics on overflow. *)
Definition checked_add (w : Z) (a b : Z) : result Z :=
  if a + b <? 2 ^ w then ROk (a + b) else RPanic.

(** Checked [-] on an unsigned integer: panics below zero. *)
Definition checked_sub (a b : Z) : result Z :=
  if a - b <? 0 then RPanic else ROk (a - b).

Definition wrapping_add (w : Z) (a b : Z) : Z := (a + b) mod 2 ^ w.
Definition wrapping_sub (w : Z) (a b : Z) : Z := (a - b) mod 2 ^ w.

(** ** Memory ([Vec<u8>] indexing) *)

Definition mem_get (m : list Z) (i : Z) : option Z :=
  if i <? 0 then None else nth_error m (Z.to_nat i).

Fixpoint replace_nth (m : list Z) (n : nat) (v : Z) : option (list Z) :=
  match m, n with
  | [], _ => None
  | _ :: t, O => Some (v :: t)
  | h :: t, S n' => option_map (cons h) (replace_nth t n' v)
  end.

Definition mem_set (m : list Z) (i : Z) (v : Z) : option (list Z) :=
  if i <? 0 then None else replace_nth m (Z.to_nat i) v.

(** [ComputerState::initialize] *)
Definition initialize : ComputerState :=
  mkComputerState (repeat 0 (Z.to_nat 65536)) (mkRegisterFile 0 0 0 0 0 0).

(** [ComputerState::initialize_from_image]: the image becomes the memory. *)
Definition initialize_from_image (image : list Z) : ComputerState :=
  mkComputerState image (mkRegisterFile 0 0 0 0 0 0).

(** [get_byte_from_memory]: [self.memory[index]]. *)
Definition get_byte_from_memory (index : Z) : M Z :=
  fun s => (s, match mem_get s.(memory) index with
               | Some v => ROk v
               | None => RPanic
               end).

(** [get_word_from_memory]: little-endian. *)
Definition get_word_from_memory (index : Z) : M Z :=
  low <- get_byte_from_memory index ;;
  high <- get_byte_from_memory (index + 1) ;;
  ret (low + 256 * high).

(** [write_byte_to_memory]: [self.memory[index] = value]. *)
Definition write_byte_to_memory (index : Z) (value : Z) : M unit :=
  fun s => match mem_set s.(memory) index value with
           | Some m' => (mkComputerState m' s.(registers), ROk tt)
           | None => (s, RPanic)
           end.

Definition pull_byte_from_stack : M Z :=
  modify_registers (fun r => with_stack_pointer r (wrapping_add 8 r.(stack_pointer) 1)) ;;
  r' <- get_registers ;;
  get_byte_from_memory (r'.(stack_pointer) + 256).

Definition pull_word_from_stack : M Z :=
  low <- pull_byte_from_stack ;;
  high <- pull_byte_from_stack ;;
  ret (low + 256 * high).

Definition push_byte_to_stack (value : Z) : M unit :=
  r <- get_registers ;;
  write_byte_to_memory (r.(stack_pointer) + 256) value ;;
  modify_registers (fun r => with_stack_pointer r (wrapping_sub 8 r.(stack_pointer) 1)).

Definition push_word_to_stack (value : Z) : M unit :=
  push_byte_to_stack (value / 256) ;;
  push_byte_to_stack (value mod 256).

(** ** Status flags *)

(** [enum StatusFlag]; the discriminant is the bit index. *)
Inductive StatusFlag :=
| CARRY | ZERO | INTERRUPT | DECIMAL | BREAK | RESERVED | OVERFLOW | NEGATIVE.

Definition flag_index (f : StatusFlag) : Z :=
  match f with
  | CARRY => 0 | ZERO => 1 | INTERRUPT => 2 | DECIMAL => 3
  | BREAK => 4 | RESERVED => 5 | OVERFLOW => 6 | NEGATIVE => 7
  end.

(** [get_status_flag]: [(status >> index) & 0x1 != 0]. *)
Definition status_bit (st : Z) (f : StatusFlag) : bool :=
  negb (Z.land (Z.shiftr st (flag_index f)) 1 =? 0).

Definition get_status_flag (f : StatusFlag) : M bool :=
  r <- get_registers ;; ret (status_bit r.(status) f).

(** [set_status_flag]: [status &= !(1 << index); status |= (new as u8) << index]
    ([!] is the 8-bit complement). *)
Definition update_status_bit (st : Z) (f : StatusFlag) (b : bool) : Z :=
  Z.lor (Z.land st (Z.lxor 255 (Z.shiftl 1 (flag_index f))))
        (Z.shiftl (Z.b2z b) (flag_index f)).

Definition set_status_flag (f : StatusFlag) (b : bool) : M unit :=
  modify_registers (fun r => with_status r (update_status_bit r.(status) f b)).

Definition set_zero_and_negative_flags (value : Z) : M unit :=
  set_status_flag ZERO (value =? 0) ;;
  set_status_flag NEGATIVE (negb (Z.land value (Z.shiftl 1 7) =? 0)).

(** Modelled from the spec: [util::is_negative] (module [util] is imported by
    lib.rs but absent from src/); §4.3 reads it as the sign of a byte, i.e.
    its bit 7. *)
Definition is_negative (v : Z) : bool := Z.testbit v 7.

(** ** Instructions ([instruction.rs], [operand_mode.rs], [operation.rs]) *)

Inductive OperandMode :=
| Absolute | AbsoluteX | AbsoluteY | Accumulator | Immediate | Implied
| Indirect | IndirectX | IndirectY | ZeroPage | ZeroPageX | ZeroPageY.

Inductive Operation :=
| ADC | AND | ASL | BCC | BCS | BEQ | BIT | BMI
| BNE | BPL | BRK | BVC | BVS | CLC | CLD | CLI
| CLV | CMP | CPX | CPY | DEC | DEX | DEY | EOR
| INC | INX | INY | JMP | JSR | LDA | LDX | LDY
| LSR | NOP | ORA | PHA | PHP | PLA | PLP | ROL
| ROR | RTI | RTS | SBC | SEC | SED | SEI | STA
| STX | STY | TAX | TAY | TSX | TXA | TXS | TYA.

Scheme Equality for OperandMode.
Scheme Equality for Operation.

(** [pub struct Instruction(pub OperandMode, pub Operation)]; the tuple
    constructor is [Instr]. *)
Inductive Instruction := Instr (mode : OperandMode) (op : Operation).

Definition Instruction_beq (i j : Instruction) : bool :=
  match i, j with
  | Instr m1 o1, Instr m2 o2 => OperandMode_beq m1 m2 && Operation_beq o1 o2
  end.

(** [static INSTRUCTION_TUPLES: [(u8, Instruction); 151]] *)
Definition INSTRUCTION_TUPLES : list (Z * Instruction) := [
  (0x69, Instr Immediate ADC);
  (0x65, Instr ZeroPage ADC);
  (0x75, Instr ZeroPageX ADC);
  (0x6D, Instr Absolute ADC);
  (0x7D, Instr AbsoluteX ADC);
  (0x79, Instr AbsoluteY ADC);
  (0x61, Instr IndirectX ADC);
  (0x71, Instr IndirectY ADC);
  (0x29, Instr Immediate AND);
  (0x25, Instr ZeroPage AND);
  (0x35, Instr ZeroPageX AND);
  (0x2D, Instr Absolute AND);
  (0x3D, Instr AbsoluteX AND);
  (0x39, Instr AbsoluteY AND);
  (0x21, Instr IndirectX AND);
  (0x31, Instr IndirectY AND);
  (0x0A, Instr Accumulator ASL);
  (0x06, Instr ZeroPage ASL);
  (0x16, Instr ZeroPageX ASL);
  (0x0E, Instr Absolute ASL);
  (0x1E, Instr AbsoluteX ASL);
  (0x90, Instr Immediate BCC);
  (0xB0, Instr Immediate BCS);
  (0xF0, Instr Immediate BEQ);
  (0x24, Instr ZeroPage BIT);
  (0x2C, Instr Absolute BIT);
  (0x30, Instr Immediate BMI);
  (0xD0, Instr Immediate BNE);
  (0x10, Instr Immediate BPL);
  (0x00, Instr Implied BRK);
  (0x50, Instr Immediate BVC);
  (0x70, Instr Immediate BVS);
  (0x18, Instr Implied CLC);
  (0xD8, Instr Implied CLD);
  (0x58, Instr Implied CLI);
  (0xB8, Instr Implied CLV);
  (0xC9, Instr Immediate CMP);
  (0xC5, Instr ZeroPage CMP);
  (0xD5, Instr ZeroPageX CMP);
  (0xCD, Instr Absolute CMP);
  (0xDD, Instr AbsoluteX CMP);
  (0xD9, Instr AbsoluteY CMP);
  (0xC1, Instr IndirectX CMP);
  (0xD1, Instr IndirectY CMP);
  (0xE0, Instr Immediate CPX);
  (0xE4, Instr ZeroPage CPX);
  (0xEC, Instr Absolute CPX);
  (0xC0, Instr Immediate CPY);
  (0xC4, Instr ZeroPage CPY);
  (0xCC, Instr Absolute CPY);
  (0xC6, Instr ZeroPage DEC);
  (0xD6, Instr ZeroPageX DEC);
  (0xCE, Instr Absolute DEC);
  (0xDE, Instr AbsoluteX DEC);
  (0xCA, Instr Implied DEX);
  (0x88, Instr Implied DEY);
  (0x49, Instr Immediate EOR);
  (0x45, Instr ZeroPage EOR);
  (0x55, Instr ZeroPageX EOR);
  (0x4D, Instr Absolute EOR);
  (0x5D, Instr AbsoluteX EOR);
  (0x59, Instr AbsoluteY EOR);
  (0x41, Instr IndirectX EOR);
  (0x51, Instr IndirectY EOR);
  (0xE6, Instr ZeroPage INC);
  (0xF6, Instr ZeroPageX INC);
  (0xEE, Instr Absolute INC);
  (0xFE, Instr AbsoluteX INC);
  (0xE8, Instr Implied INX);
  (0xC8, Instr Implied INY);
  (0x4C, Instr Absolute JMP);
  (0x6C, Instr Indirect JMP);
  (0x20, Instr Absolute JSR);
  (0xA9, Instr Immediate LDA);
  (0xA5, Instr ZeroPage LDA);
  (0xB5, Instr ZeroPageX LDA);
  (0xAD, Instr Absolute LDA);
  (0xBD, Instr AbsoluteX LDA);
  (0xB9, Instr AbsoluteY LDA);
  (0xA1, Instr IndirectX LDA);
  (0xB1, Instr IndirectY LDA);
  (0xA2, Instr Immediate LDX);
  (0xA6, Instr ZeroPage LDX);
  (0xB6, Instr ZeroPageY LDX);
  (0xAE, Instr Absolute LDX);
  (0xBE, Instr AbsoluteY LDX);
  (0xA0, Instr Immediate LDY);
  (0xA4, Instr ZeroPage LDY);
  (0xB4, Instr ZeroPageX LDY);
  (0xAC, Instr Absolute LDY);
  (0xBC, Instr AbsoluteX LDY);
  (0x4A, Instr Accumulator LSR);
  (0x46, Instr ZeroPage LSR);
  (0x56, Instr ZeroPageX LSR);
  (0x4E, Instr Absolute LSR);
  (0x5E, Instr AbsoluteX LSR);
  (0xEA, Instr Implied NOP);
  (0x09, Instr Immediate ORA);
  (0x05, Instr ZeroPage ORA);
  (0x15, Instr ZeroPageX ORA);
  (0x0D, Instr Absolute ORA);
  (0x1D, Instr AbsoluteX ORA);
  (0x19, Instr AbsoluteY ORA);
  (0x01, Instr IndirectX ORA);
  (0x11, Instr IndirectY ORA);
  (0x48, Instr Implied PHA);
  (0x08, Instr Implied PHP);
  (0x68, Instr Implied PLA);
  (0x28, Instr Implied PLP);
  (0x2A, Instr Accumulator ROL);
  (0x26, Instr ZeroPage ROL);
  (0x36, Instr ZeroPageX ROL);
  (0x2E, Instr Absolute ROL);
  (0x3E, Instr AbsoluteX ROL);
  (0x6A, Instr Accumulator ROR);
  (0x66, Instr ZeroPage ROR);
  (0x76, Instr ZeroPageX ROR);
  (0x6E, Instr Absolute ROR);
  (0x7E, Instr AbsoluteX ROR);
  (0x40, Instr Implied RTI);
  (0x60, Instr Implied RTS);
  (0xE9, Instr Immediate SBC);
  (0xE5, Instr ZeroPage SBC);
  (0xF5, Instr ZeroPageX SBC);
  (0xED, Instr Absolute SBC);
  (0xFD, Instr AbsoluteX SBC);
  (0xF9, Instr AbsoluteY SBC);
  (0xE1, Instr IndirectX SBC);
  (0xF1, Instr IndirectY SBC);
  (0x38, Instr Implied SEC);
  (0xF8, Instr Implied SED);
  (0x78, Instr Implied SEI);
  (0x85, Instr ZeroPage STA);
  (0x95, Instr ZeroPageX STA);
  (0x8D, Instr Absolute STA);
  (0x9D, Instr AbsoluteX STA);
  (0x99, Instr AbsoluteY STA);
  (0x81, Instr IndirectX STA);
  (0x91, Instr IndirectY STA);
  (0x86, Instr ZeroPage STX);
  (0x96, Instr ZeroPageY STX);
  (0x8E, Instr Absolute STX);
  (0x84, Instr ZeroPage STY);
  (0x94, Instr ZeroPageX STY);
  (0x8C, Instr Absolute STY);
  (0xAA, Instr Implied TAX);
  (0xA8, Instr Implied TAY);
  (0xBA, Instr Implied TSX);
  (0x8A, Instr Implied TXA);
  (0x9A, Instr Implied TXS);
  (0x98, Instr Implied TYA)
].

(** [instruction_to_bytecode]: first tuple whose instruction matches. *)
Fixpoint find_bytecode (tbl : list (Z * Instruction)) (i : Instruction) : result Z :=
  match tbl with
  | [] => RErr "Can't find instruction"
  | (b, instr) :: t => if Instruction_beq instr i then ROk b else find_bytecode t i
  end.

Definition instruction_to_bytecode (i : Instruction) : result Z :=
  find_bytecode INSTRUCTION_TUPLES i.

(** [bytecode_to_instruction]: first tuple whose byte matches. *)
Fixpoint find_instruction (tbl : list (Z * Instruction)) (bc : Z) : result Instruction :=
  match tbl with
  | [] => RErr "Can't find instruction"
  | (b, instr) :: t => if b =? bc then ROk instr else find_instruction t bc
  end.

Definition bytecode_to_instruction (bc : Z) : result Instruction :=
  find_instruction INSTRUCTION_TUPLES bc.

(** Modelled from the spec: [instruction::decode_instruction] (imported by
    lib.rs for [step] but absent from src/).  §4.1 describes it as the
    table-backed decoder from an opcode byte to a (mode, operation) pair
    that fails on every byte outside the table, which is
    [bytecode_to_instruction] over [INSTRUCTION_TUPLES]. *)
Definition decode_instruction (bc : Z) : result Instruction :=
  bytecode_to_instruction bc.

(** ** Operands *)

Module Operand.
(** [enum Operand] *)
Inductive Operand :=
| Accumulator
| Address (addr : Z)
| Immediate (value : Z)
| Implied.
End Operand.

(** [self.registers.program_counter += n] (checked [u16] addition). *)
Definition advance_program_counter (n : Z) : M unit :=
  r <- get_registers ;;
  pc <- lift (checked_add 16 r.(program_counter) n) ;;
  modify_registers (fun r => with_program_counter r pc).

Definition set_program_counter (v : Z) : M unit :=
  modify_registers (fun r => with_program_counter r v).

Definition get_operand_value (operand : Operand.Operand) : M Z :=
  match operand with
  | Operand.Accumulator => r <- get_registers ;; ret r.(accumulator)
  | Operand.Address addr => get_byte_from_memory addr
  | Operand.Immediate value => ret value
  | Operand.Implied => fail "Cannot get implied operand value"
  end.

Definition set_operand_value (operand : Operand.Operand) (value : Z) : M unit :=
  match operand with
  | Operand.Accumulator => modify_registers (fun r => with_accumulator r value)
  | Operand.Address addr => write_byte_to_memory addr value
  | Operand.Immediate _ => fail "Cannot set immediate operand value"
  | Operand.Implied => fail "Cannot set implied operand value"
  end.

(** *** Operand resolution ([fetch_operand] and its helpers) *)

Definition get_absolute_operand (offset : Z) : M Operand.Operand :=
  r <- get_registers ;;
  address <- get_word_from_memory r.(program_counter) ;;
  advance_program_counter 2 ;;
  a <- lift (checked_add 16 address offset) ;;
  ret (Operand.Address a).

Definition get_immediate_operand : M Operand.Operand :=
  r <- get_registers ;;
  let address := r.(program_counter) in
  advance_program_counter 1 ;;
  v <- get_byte_from_memory address ;;
  ret (Operand.Immediate v).

Definition get_indirect_operand : M Operand.Operand :=
  r <- get_registers ;;
  pointer_address <- get_word_from_memory r.(program_counter) ;;
  pointer <- get_word_from_memory pointer_address ;;
  advance_program_counter 2 ;;
  ret (Operand.Address pointer).

Definition get_indirect_x_operand : M Operand.Operand :=
  r <- get_registers ;;
  address <- get_byte_from_memory r.(program_counter) ;;
  let offset := r.(x) in
  let pointer_address := Z.land (address + offset) 255 in
  pointer <- get_word_from_memory pointer_address ;;
  advance_program_counter 1 ;;
  ret (Operand.Address pointer).

(** Note: the offset is read from [self.registers.x], as in the source. *)
Definition get_indirect_y_operand : M Operand.Operand :=
  r <- get_registers ;;
  address <- get_byte_from_memory r.(program_counter) ;;
  pointer <- get_word_from_memory address ;;
  r' <- get_registers ;;
  let offset := r'.(x) in
  advance_program_counter 1 ;;
  a <- lift (checked_add 16 pointer offset) ;;
  ret (Operand.Address a).

(** [(address + offset) & 0xff] with [address, offset : u8]. *)
Definition get_zero_page_operand (offset : Z) : M Operand.Operand :=
  r <- get_registers ;;
  address <- get_byte_from_memory r.(program_counter) ;;
  sum <- lift (checked_add 8 address offset) ;;
  let final_address := Z.land sum 255 in
  advance_program_counter 1 ;;
  ret (Operand.Address final_address).

Definition fetch_operand (mode : OperandMode) : M Operand.Operand :=
  match mode with
  | Absolute => get_absolute_operand 0
  | AbsoluteX => r <- get_registers ;; get_absolute_operand r.(x)
  | AbsoluteY => r <- get_registers ;; get_absolute_operand r.(y)
  | Accumulator => ret Operand.Accumulator
  | Immediate => get_immediate_operand
  | Implied => ret Operand.Implied
  | Indirect => get_indirect_operand
  | IndirectX => get_indirect_x_operand
  | IndirectY => get_indirect_y_operand
  | ZeroPage => get_zero_page_operand 0
  | ZeroPageX => r <- get_registers ;; get_zero_page_operand r.(x)
  | ZeroPageY => r <- get_registers ;; get_zero_page_operand r.(y)
  end.

(** ** The execution engine *)

Definition execute_add_with_carry (operand : Operand.Operand) : M unit :=
  operand_value <- get_operand_value operand ;;
  c <- get_status_flag CARRY ;;
  r <- get_registers ;;
  let acc := r.(accumulator) in
  let sum := operand_value + Z.b2z c + acc in
  let new_carry := negb (Z.land sum (Z.shiftl 1 8) =? 0) in
  set_status_flag CARRY new_carry ;;
  let sum := Z.land sum 255 in
  let byte_positive := negb (is_negative operand_value) in
  let accumulator_positive := negb (is_negative acc) in
  let sum_positive := negb (is_negative sum) in
  let overflow := Bool.eqb byte_positive accumulator_positive
                  && negb (Bool.eqb sum_positive byte_positive) in
  set_status_flag OVERFLOW overflow ;;
  set_zero_and_negative_flags sum ;;
  modify_registers (fun r => with_accumulator r sum).

Definition execute_and (operand : Operand.Operand) : M unit :=
  operand_value <- get_operand_value operand ;;
  r <- get_registers ;;
  let result := Z.land r.(accumulator) operand_value in
  set_zero_and_negative_flags result ;;
  modify_registers (fun r => with_accumulator r result).

Definition execute_left_shift (operand : Operand.Operand) : M unit :=
  operand_value <- get_operand_value operand ;;
  let high_bit := negb (Z.land operand_value (Z.shiftl 1 7) =? 0) in
  let result := Z.land (Z.shiftl operand_value 1) 255 in
  set_status_flag CARRY high_bit ;;
  set_zero_and_negative_flags result ;;
  set_operand_value operand result.

Definition execute_branch_if (operand : Operand.Operand) (flag : StatusFlag) (value : bool)
  : M unit :=
  f <- get_status_flag flag ;;
  if Bool.eqb f value then
    operand_value <- get_operand_value operand ;;
    let operand_value :=
      if operand_value >? 127 then wrapping_sub 16 operand_value 256 else operand_value in
    modify_registers (fun r =>
      with_program_counter r
        (wrapping_add 16 r.(program_counter) (wrapping_sub 16 operand_value 2)))
  else ret tt.

Definition execute_bit_test (operand : Operand.Operand) : M unit :=
  operand_value <- get_operand_value operand ;;
  let bit_7 := negb (Z.land operand_value (Z.shiftl 1 7) =? 0) in
  let bit_6 := negb (Z.land operand_value (Z.shiftl 1 6) =? 0) in
  r <- get_registers ;;
  let and_result := Z.land r.(accumulator) operand_value in
  set_status_flag NEGATIVE bit_7 ;;
  set_status_flag OVERFLOW bit_6 ;;
  set_status_flag ZERO (and_result =? 0).

Definition execute_compare (operand : Operand.Operand) (register : Z) : M unit :=
  operand_value <- get_operand_value operand ;;
  let substract_value := wrapping_sub 8 register operand_value in
  set_zero_and_negative_flags substract_value ;;
  set_status_flag CARRY (register >=? operand_value).

Definition execute_increment (operand : Operand.Operand) (negate : bool) : M unit :=
  operand_value <- get_operand_value operand ;;
  let result := if negate then wrapping_sub 8 operand_value 1
                else wrapping_add 8 operand_value 1 in
  set_zero_and_negative_flags result ;;
  set_operand_value operand result.

Definition execute_increment_x (negate : bool) : M unit :=
  r <- get_registers ;;
  let result := if negate then wrapping_sub 8 r.(x) 1 else wrapping_add 8 r.(x) 1 in
  set_zero_and_negative_flags result ;;
  modify_registers (fun r => with_x r result).

Definition execute_increment_y (negate : bool) : M unit :=
  r <- get_registers ;;
  let result := if negate then wrapping_sub 8 r.(y) 1 else wrapping_add 8 r.(y) 1 in
  set_zero_and_negative_flags result ;;
  modify_registers (fun r => with_y r result).

Definition execute_exclusive_or (operand : Operand.Operand) : M unit :=
  operand_value <- get_operand_value operand ;;
  r <- get_registers ;;
  let result := Z.lxor r.(accumulator) operand_value in
  set_zero_and_negative_flags result ;;
  modify_registers (fun r => with_accumulator r result).

Definition execute_jump (operand : Operand.Operand) (save_ra : bool) : M unit :=
  (if save_ra then
     r <- get_registers ;;
     ra <- lift (checked_sub r.(program_counter) 1) ;;
     push_word_to_stack ra
   else ret tt) ;;
  match operand with
  | Operand.Address a => set_program_counter a
  | _ => fail "Jump must have Address-type operand"
  end.

Definition execute_load_accumulator (operand : Operand.Operand) : M unit :=
  operand_value <- get_operand_value operand ;;
  set_zero_and_negative_flags operand_value ;;
  modify_registers (fun r => with_accumulator r operand_value).

Definition execute_load_x (operand : Operand.Operand) : M unit :=
  operand_value <- get_operand_value operand ;;
  set_zero_and_negative_flags operand_value ;;
  modify_registers (fun r => with_x r operand_value).

Definition execute_load_y (operand : Operand.Operand) : M unit :=
  operand_value <- get_operand_value operand ;;
  set_zero_and_negative_flags operand_value ;;
  modify_registers (fun r => with_y r operand_value).

Definition execute_right_shift (operand : Operand.Operand) : M unit :=
  operand_value <- get_operand_value operand ;;
  let low_bit := negb (Z.land operand_value 1 =? 0) in
  let result := Z.shiftr operand_value 1 in
  set_status_flag CARRY low_bit ;;
  set_zero_and_negative_flags result ;;
  set_operand_value operand result.

Definition execute_inclusive_or (operand : Operand.Operand) : M unit :=
  operand_value <- get_operand_value operand ;;
  r <- get_registers ;;
  let result := Z.lor r.(accumulator) operand_value in
  set_zero_and_negative_flags result ;;
  modify_registers (fun r => with_accumulator r result).

Definition execute_pull_accumulator : M unit :=
  new_accumulator <- pull_byte_from_stack ;;
  set_zero_and_negative_flags new_accumulator ;;
  modify_registers (fun r => with_accumulator r new_accumulator).

Definition execute_pull_status : M unit :=
  v <- pull_byte_from_stack ;;
  modify_registers (fun r => with_status r v).

Definition execute_rotate_right (operand : Operand.Operand) : M unit :=
  operand_value <- get_operand_value operand ;;
  let low_bit := negb (Z.land operand_value 1 =? 0) in
  c <- get_status_flag CARRY ;;
  let new_high_bit := Z.land (Z.shiftl (Z.b2z c) 7) 255 in
  let result := Z.lor (Z.shiftr operand_value 1) new_high_bit in
  set_zero_and_negative_flags result ;;
  set_status_flag CARRY low_bit ;;
  set_operand_value operand result.

Definition execute_rotate_left (operand : Operand.Operand) : M unit :=
  operand_value <- get_operand_value operand ;;
  let high_bit := negb (Z.land operand_value (Z.shiftl 1 7) =? 0) in
  c <- get_status_flag CARRY ;;
  let new_low_bit := Z.b2z c in
  let result := Z.lor (Z.land (Z.shiftl operand_value 1) 255) new_low_bit in
  set_zero_and_negative_flags result ;;
  set_status_flag CARRY high_bit ;;
  set_operand_value operand result.

Definition execute_return_from_interrupt : M unit :=
  st <- pull_byte_from_stack ;;
  modify_registers (fun r => with_status r st) ;;
  pc <- pull_word_from_stack ;;
  set_program_counter pc.

Definition execute_return_from_subroutine : M unit :=
  w <- pull_word_from_stack ;;
  pc <- lift (checked_add 16 w 1) ;;
  set_program_counter pc.

(** [u8::overflowing_sub] is [(wrapping_sub, a < b)]. *)
Definition execute_substract_with_carry (operand : Operand.Operand) : M unit :=
  operand_value <- get_operand_value operand ;;
  r <- get_registers ;;
  let acc := r.(accumulator) in
  c <- get_status_flag CARRY ;;
  let carry := 1 - Z.b2z c in
  let first_sum := wrapping_sub 8 acc operand_value in
  let first_overflow := acc <? operand_value in
  let result := wrapping_sub 8 first_sum carry in
  let second_overflow := first_sum <? carry in
  let new_carry := negb first_overflow && negb second_overflow in
  set_status_flag CARRY new_carry ;;
  let byte_positive := negb (is_negative operand_value) in
  let accumulator_positive := negb (is_negative acc) in
  let sum_positive := negb (is_negative result) in
  let overflow := negb (Bool.eqb byte_positive accumulator_positive)
                  && Bool.eqb sum_positive byte_positive in
  set_status_flag OVERFLOW overflow ;;
  set_zero_and_negative_flags result ;;
  modify_registers (fun r => with_accumulator r result).

(** [execute_operation]: one arm per implemented mnemonic; BRK, the stores
    and the transfers fall through to [_ => Err("Unimplemented operation")]. *)
Definition execute_operation (op : Operation) (operand : Operand.Operand) : M unit :=
  match op with
  | ADC => execute_add_with_carry operand
  | AND => execute_and operand
  | ASL => execute_left_shift operand
  | BCC => execute_branch_if operand CARRY false
  | BCS => execute_branch_if operand CARRY true
  | BEQ => execute_branch_if operand ZERO true
  | BIT => execute_bit_test operand
  | BMI => execute_branch_if operand NEGATIVE true
  | BNE => execute_branch_if operand ZERO false
  | BPL => execute_branch_if operand NEGATIVE false
  | BVC => execute_branch_if operand OVERFLOW false
  | BVS => execute_branch_if operand OVERFLOW true
  | CLC => set_status_flag CARRY false
  | CLD => set_status_flag DECIMAL false
  | CLI => set_status_flag INTERRUPT false
  | CLV => set_status_flag OVERFLOW false
  | CMP => r <- get_registers ;; execute_compare operand r.(accumulator)
  | CPX => r <- get_registers ;; execute_compare operand r.(x)
  | CPY => r <- get_registers ;; execute_compare operand r.(y)
  | DEC => execute_increment operand true
  | DEX => execute_increment_x true
  | DEY => execute_increment_y true
  | EOR => execute_exclusive_or operand
  | INC => execute_increment operand false
  | INX => execute_increment_x false
  | INY => execute_increment_y false
  | JMP => execute_jump operand false
  | JSR => execute_jump operand true
  | LDA => execute_load_accumulator operand
  | LDX => execute_load_x operand
  | LDY => execute_load_y operand
  | LSR => execute_right_shift operand
  | NOP => ret tt
  | ORA => execute_inclusive_or operand
  | PHA => r <- get_registers ;; push_byte_to_stack r.(accumulator)
  | PHP => r <- get_registers ;; push_byte_to_stack r.(status)
  | PLA => execute_pull_accumulator
  | PLP => execute_pull_status
  | ROL => execute_rotate_left operand
  | ROR => execute_rotate_right operand
  | RTI => execute_return_from_interrupt
  | RTS => execute_return_from_subroutine
  | SBC => execute_substract_with_carry operand
  | SEC => set_status_flag CARRY true
  | SED => set_status_flag DECIMAL true
  | SEI => set_status_flag INTERRUPT true
  | _ => fail "Unimplemented operation"
  end.

(** ** The step loop *)

(** The body of [step] on its [mut self]: fetch, advance, decode, resolve,
    execute. *)
Definition step_body : M unit :=
  r <- get_registers ;;
  instruction <- get_byte_from_memory r.(program_counter) ;;
  advance_program_counter 1 ;;
  decoded_instruction <- lift (decode_instruction instruction) ;;
  match decoded_instruction with
  | Instr mode op =>
      operand <- fetch_operand mode ;;
      execute_operation op operand
  end.

(** [pub fn step(mut self) -> Result<Self, &'static str>]: the state is
    taken by value; [Ok(self)] hands it back, an [Err] drops it. *)
Definition step (s : ComputerState) : result ComputerState :=
  match step_body s with
  | (s', ROk _) => ROk s'
  | (_, RErr e) => RErr e
  | (_, RPanic) => RPanic
  end.

(** [multiple_steps]: [(0..steps).try_fold(self, |state, _| state.step())]. *)
Fixpoint multiple_steps (s : ComputerState) (steps : nat) : result ComputerState :=
  match steps with
  | O => ROk s
  | S k =>
      match step s with
      | ROk s' => multiple_steps s' k
      | RErr e => RErr e
      | RPanic => RPanic
      end
  end.

(** ** Sanity checks against the repository's unit tests *)

Definition run_op (op : Operation) (operand : Operand.Operand) (s : ComputerState)
  : ComputerState * result unit :=
  execute_operation op operand s.

Definition small_state (acc st pc : Z) : ComputerState :=
  mkComputerState (repeat 0 512) (mkRegisterFile acc 0 0 st 0 pc).

(* [it_executes_adc]: 0x80 + 0x80 = 0x01 with the carry in set from before
   gives CARRY and OVERFLOW; here with carry in clear the sum is 0x00. *)
Example adc_80_80 :
  let '(s', _) := run_op ADC (Operand.Immediate 128) (small_state 128 0 0) in
  (s'.(registers).(accumulator), s'.(registers).(status)) = (0, 1 + 2 + 64).
Proof. reflexivity. Qed.

(* [it_branches]: BVC 0x55 from program counter 0 lands on 0x53. *)
Example bvc_55 :
  let '(s', r) := run_op BVC (Operand.Immediate 85) (small_state 0 0 0) in
  (s'.(registers).(program_counter), r) = (83, ROk tt).
Proof. reflexivity. Qed.

(* [it_branches]: BCC 0xf0 from 0x44 lands on 0x32. *)
Example bcc_f0 :
  let '(s', r) := run_op BCC (Operand.Immediate 240) (small_state 0 0 68) in
  (s'.(registers).(program_counter), r) = (50, ROk tt).
Proof. reflexivity. Qed.

(** ** Byte-level facts, decided by evaluation over the finite ranges *)

Fixpoint all_below (n : nat) (p : Z -> bool) : bool :=
  match n with
  | O => true
  | S k => p (Z.of_nat k) && all_below k p
  end.

Lemma all_below_spec (n : nat) (p : Z -> bool) :
  all_below n p = true -> forall z, 0 <= z < Z.of_nat n -> p z = true.
Proof.
  induction n as [|n IH]; intros H z Hz; [simpl in Hz; lia|].
  simpl in H. apply andb_true_iff in H as [H1 H2].
  destruct (Z.eq_dec z (Z.of_nat n)) as [->|Hne]; [exact H1|].
  apply IH; [exact H2|]. rewrite Nat2Z.inj_succ in Hz. lia.
Qed.

Definition all_flags : list StatusFlag :=
  [CARRY; ZERO; INTERRUPT; DECIMAL; BREAK; RESERVED; OVERFLOW; NEGATIVE].

Lemma all_flags_complete (f : StatusFlag) : In f all_flags.
Proof. destruct f; simpl; tauto. Qed.

Definition update_status_bit_ok (st : Z) : bool :=
  forallb (fun f =>
    forallb (fun b =>
      let st' := update_status_bit st f b in
      (0 <=? st') && (st' <? 256)
      && all_below 8 (fun i =>
           Bool.eqb (Z.testbit st' i)
                    (if i =? flag_index f then b else Z.testbit st i)))
      [true; false])
    all_flags
  && forallb (fun f => Bool.eqb (status_bit st f) (Z.testbit st (flag_index f))) all_flags.

Lemma update_status_bit_all : all_below 256 update_status_bit_ok = true.
Proof. vm_compute. reflexivity. Qed.

Lemma update_status_bit_facts (st : Z) (f : StatusFlag) (b : bool) :
  0 <= st < 256 ->
  (0 <= update_status_bit st f b < 256)
  /\ (forall i, 0 <= i < 8 ->
        Z.testbit (update_status_bit st f b) i
        = if i =? flag_index f then b else Z.testbit st i)
  /\ (forall g, status_bit st g = Z.testbit st (flag_index g)).
Proof.
  intros Hst.
  pose proof (all_below_spec _ _ update_status_bit_all st Hst) as H.
  unfold update_status_bit_ok in H.
  apply andb_true_iff in H as [H Hg].
  rewrite forallb_forall in H, Hg.
  specialize (H f (all_flags_complete f)). rewrite forallb_forall in H.
  assert (Hb : In b [true; false]) by (destruct b; simpl; tauto).
  specialize (H b Hb). cbv zeta in H.
  apply andb_true_iff in H as [H Hi]. apply andb_true_iff in H as [H0 H1].
  apply Z.leb_le in H0. apply Z.ltb_lt in H1.
  split; [lia|split].
  - intros i Hi8. apply Bool.eqb_prop.
    exact (all_below_spec _ _ Hi i Hi8).
  - intros g. apply Bool.eqb_prop. exact (Hg g (all_flags_complete g)).
Qed.

Lemma update_status_bit_range (st : Z) (f : StatusFlag) (b : bool) :
  0 <= st < 256 -> 0 <= update_status_bit st f b < 256.
Proof. intros H. apply (update_status_bit_facts st f b H). Qed.

Lemma testbit_update_status_bit (st : Z) (f : StatusFlag) (b : bool) (i : Z) :
  0 <= st < 256 -> 0 <= i < 8 ->
  Z.testbit (update_status_bit st f b) i
  = if i =? flag_index f then b else Z.testbit st i.
Proof. intros H Hi. apply (update_status_bit_facts st f b H); exact Hi. Qed.

Lemma status_bit_testbit (st : Z) (g : StatusFlag) :
  0 <= st < 256 -> status_bit st g = Z.testbit st (flag_index g).
Proof. intros H. apply (update_status_bit_facts st CARRY true H). Qed.

(** [value & (1 << k) != 0] is bit [k] of [value]. *)
Definition land_bit_ok (v : Z) : bool :=
  all_below 9 (fun k => Bool.eqb (negb (Z.land v (Z.shiftl 1 k) =? 0)) (Z.testbit v k)).

Lemma land_bit_all : all_below 512 land_bit_ok = true.
Proof. vm_compute. reflexivity. Qed.

Lemma land_bit (v k : Z) :
  0 <= v < 512 -> 0 <= k < 9 -> negb (Z.land v (Z.shiftl 1 k) =? 0) = Z.testbit v k.
Proof.
  intros Hv Hk. apply Bool.eqb_prop.
  exact (all_below_spec _ _ (all_below_spec _ _ land_bit_all v Hv) k Hk).
Qed.

Lemma land_bit0 (v : Z) : 0 <= v < 512 -> negb (Z.land v 1 =? 0) = Z.testbit v 0.
Proof. intros Hv. exact (land_bit v 0 Hv ltac:(lia)). Qed.

(** Rewrites the bits of a nested [update_status_bit] to the updated
    values. *)
Ltac status_bits :=
  repeat (rewrite testbit_update_status_bit;
          [| repeat apply update_status_bit_range; lia | lia]);
  cbn [flag_index Z.eqb Pos.eqb].

(** ** Opcode table lemmas *)

Definition Instruction_eq_dec (i j : Instruction) : {i = j} + {i <> j}.
Proof.
  decide equality; first [apply Operation_eq_dec | apply OperandMode_eq_dec].
Defined.

Lemma find_instruction_in (tbl : list (Z * Instruction)) (bc : Z) (i : Instruction) :
  find_instruction tbl bc = ROk i -> In (bc, i) tbl.
Proof.
  induction tbl as [|[b instr] t IH]; simpl; [discriminate|].
  destruct (Z.eqb_spec b bc) as [->|_].
  - intros H. inversion H. left. reflexivity.
  - intros H. right. apply IH. exact H.
Qed.

Lemma decode_instruction_in (bc : Z) (i : Instruction) :
  decode_instruction bc = ROk i -> In (bc, i) INSTRUCTION_TUPLES.
Proof. apply find_instruction_in. Qed.

Definition encodes_back (e : Z * Instruction) : bool :=
  let '(bc, i) := e in
  match instruction_to_bytecode i with ROk b => b =? bc | _ => false end.

Definition decodes_back (e : Z * Instruction) : bool :=
  let '(bc, i) := e in
  match bytecode_to_instruction bc with
  | ROk j => if Instruction_eq_dec j i then true else false
  | _ => false
  end.

Lemma table_encodes_back : forallb encodes_back INSTRUCTION_TUPLES = true.
Proof. vm_compute. reflexivity. Qed.

Lemma table_decodes_back : forallb decodes_back INSTRUCTION_TUPLES = true.
Proof. vm_compute. reflexivity. Qed.

(** ** Cycle counts, mnemonics and word writes *)

(** [CycleCount]; the field [cycles] is named [cycle_count] here, since
    the helper function [cycles] below keeps its name. *)
Record CycleCount := mkCycleCount {
  cycle_count : Z;
  page_boundary_costs_extra : bool
}.

Definition cycles (n : Z) : CycleCount := mkCycleCount n false.

Definition cycles_with_extra_cost (n : Z) : CycleCount := mkCycleCount n true.

(** [calculate_cycles]: one arm per timed instruction, then
    [_ => Err("Instruction timings not found")]. *)
Definition calculate_cycles (instr : Instruction) : result CycleCount :=
  match instr with
  | Instr Immediate ADC => ROk (cycles 2)
  | Instr ZeroPage ADC => ROk (cycles 3)
  | Instr ZeroPageX ADC => ROk (cycles 4)
  | Instr Absolute ADC => ROk (cycles 4)
  | Instr AbsoluteX ADC => ROk (cycles_with_extra_cost 4)
  | Instr AbsoluteY ADC => ROk (cycles_with_extra_cost 4)
  | Instr IndirectX ADC => ROk (cycles 6)
  | Instr IndirectY ADC => ROk (cycles_with_extra_cost 5)
  | Instr Immediate AND => ROk (cycles 2)
  | Instr ZeroPage AND => ROk (cycles 3)
  | Instr ZeroPageX AND => ROk (cycles 4)
  | Instr Absolute AND => ROk (cycles 4)
  | Instr AbsoluteX AND => ROk (cycles 4)
  | Instr AbsoluteY AND => ROk (cycles 4)
  | Instr IndirectX AND => ROk (cycles 6)
  | Instr IndirectY AND => ROk (cycles 5)
  | Instr Accumulator ASL => ROk (cycles 1)
  | Instr ZeroPage ASL => ROk (cycles 5)
  | Instr ZeroPageX ASL => ROk (cycles 6)
  | Instr Absolute ASL => ROk (cycles 6)
  | Instr AbsoluteX ASL => ROk (cycles 7)
  | Instr Immediate BCC => ROk (cycles 1)
  | Instr Immediate BCS => ROk (cycles 1)
  | Instr Immediate BEQ => ROk (cycles 1)
  | Instr ZeroPage BIT => ROk (cycles 3)
  | Instr Absolute BIT => ROk (cycles 4)
  | Instr Immediate BMI => ROk (cycles 1)
  | Instr Immediate BNE => ROk (cycles 1)
  | Instr Immediate BPL => ROk (cycles 1)
  | Instr Implied BRK => ROk (cycles 7)
  | Instr Immediate BVC => ROk (cycles 1)
  | Instr Immediate BVS => ROk (cycles 1)
  | Instr Implied CLC => ROk (cycles 2)
  | Instr Implied CLD => ROk (cycles 2)
  | Instr Implied CLI => ROk (cycles 2)
  | Instr Implied CLV => ROk (cycles 2)
  | Instr Immediate CMP => ROk (cycles 2)
  | Instr ZeroPage CMP => ROk (cycles 3)
  | Instr ZeroPageX CMP => ROk (cycles 4)
  | Instr Absolute CMP => ROk (cycles 4)
  | Instr AbsoluteX CMP => ROk (cycles_with_extra_cost 4)
  | Instr AbsoluteY CMP => ROk (cycles_with_extra_cost 4)
  | Instr IndirectX CMP => ROk (cycles 6)
  | Instr IndirectY CMP => ROk (cycles_with_extra_cost 5)
  | Instr Immediate CPX => ROk (cycles 2)
  | Instr ZeroPage CPX => ROk (cycles 3)
  | Instr Absolute CPX => ROk (cycles 4)
  | Instr Immediate CPY => ROk (cycles 2)
  | Instr ZeroPage CPY => ROk (cycles 3)
  | Instr Absolute CPY => ROk (cycles 4)
  | Instr ZeroPage DEC => ROk (cycles 5)
  | Instr ZeroPageX DEC => ROk (cycles 6)
  | Instr Absolute DEC => ROk (cycles 6)
  | Instr AbsoluteX DEC => ROk (cycles 7)
  | Instr Implied DEX => ROk (cycles 2)
  | Instr Implied DEY => ROk (cycles 2)
  | Instr Immediate EOR => ROk (cycles 2)
  | Instr ZeroPage EOR => ROk (cycles 3)
  | Instr ZeroPageX EOR => ROk (cycles 4)
  | Instr Absolute EOR => ROk (cycles 4)
  | Instr AbsoluteX EOR => ROk (cycles_with_extra_cost 4)
  | Instr AbsoluteY EOR => ROk (cycles_with_extra_cost 4)
  | Instr IndirectX EOR => ROk (cycles 6)
  | Instr IndirectY EOR => ROk (cycles_with_extra_cost 5)
  | Instr ZeroPage INC => ROk (cycles 5)
  | Instr ZeroPageX INC => ROk (cycles 6)
  | Instr Absolute INC => ROk (cycles 6)
  | Instr AbsoluteX INC => ROk (cycles 7)
  | Instr Implied INX => ROk (cycles 2)
  | Instr Implied INY => ROk (cycles 2)
  | Instr Absolute JMP => ROk (cycles 3)
  | Instr Indirect JMP => ROk (cycles 5)
  | Instr Absolute JSR => ROk (cycles 6)
  | Instr Immediate LDA => ROk (cycles 2)
  | Instr ZeroPage LDA => ROk (cycles 3)
  | Instr ZeroPageX LDA => ROk (cycles 4)
  | Instr Absolute LDA => ROk (cycles 4)
  | Instr AbsoluteX LDA => ROk (cycles_with_extra_cost 4)
  | Instr AbsoluteY LDA => ROk (cycles_with_extra_cost 4)
  | Instr IndirectX LDA => ROk (cycles 6)
  | Instr IndirectY LDA => ROk (cycles_with_extra_cost 5)
  | Instr Immediate LDX => ROk (cycles 2)
  | Instr ZeroPage LDX => ROk (cycles 3)
  | Instr ZeroPageY LDX => ROk (cycles 4)
  | Instr Absolute LDX => ROk (cycles 4)
  | Instr AbsoluteY LDX => ROk (cycles_with_extra_cost 4)
  | Instr Immediate LDY => ROk (cycles 2)
  | Instr ZeroPage LDY => ROk (cycles 3)
  | Instr ZeroPageX LDY => ROk (cycles 4)
  | Instr Absolute LDY => ROk (cycles 4)
  | Instr AbsoluteX LDY => ROk (cycles_with_extra_cost 4)
  | Instr Accumulator LSR => ROk (cycles 2)
  | Instr ZeroPage LSR => ROk (cycles 5)
  | Instr ZeroPageX LSR => ROk (cycles 6)
  | Instr Absolute LSR => ROk (cycles 6)
  | Instr AbsoluteX LSR => ROk (cycles 7)
  | Instr Implied NOP => ROk (cycles 2)
  | Instr Immediate ORA => ROk (cycles 2)
  | Instr ZeroPage ORA => ROk (cycles 3)
  | Instr ZeroPageX ORA => ROk (cycles 4)
  | Instr Absolute ORA => ROk (cycles 4)
  | Instr AbsoluteX ORA => ROk (cycles_with_extra_cost 4)
  | Instr AbsoluteY ORA => ROk (cycles_with_extra_cost 4)
  | Instr IndirectX ORA => ROk (cycles 6)
  | Instr IndirectY ORA => ROk (cycles_with_extra_cost 5)
  | Instr Implied PHA => ROk (cycles 1)
  | Instr Implied PHP => ROk (cycles 1)
  | Instr Implied PLA => ROk (cycles 1)
  | Instr Implied PLP => ROk (cycles 1)
  | Instr Accumulator ROL => ROk (cycles 2)
  | Instr ZeroPage ROL => ROk (cycles 5)
  | Instr ZeroPageX ROL => ROk (cycles 6)
  | Instr Absolute ROL => ROk (cycles 6)
  | Instr AbsoluteX ROL => ROk (cycles 7)
  | Instr Accumulator ROR => ROk (cycles 2)
  | Instr ZeroPage ROR => ROk (cycles 5)
  | Instr ZeroPageX ROR => ROk (cycles 6)
  | Instr Absolute ROR => ROk (cycles 6)
  | Instr AbsoluteX ROR => ROk (cycles 7)
  | Instr Implied RTI => ROk (cycles 6)
  | Instr Implied RTS => ROk (cycles 6)
  | Instr Immediate SBC => ROk (cycles 2)
  | Instr ZeroPage SBC => ROk (cycles 3)
  | Instr ZeroPageX SBC => ROk (cycles 4)
  | Instr Absolute SBC => ROk (cycles 4)
  | Instr AbsoluteX SBC => ROk (cycles_with_extra_cost 4)
  | Instr AbsoluteY SBC => ROk (cycles_with_extra_cost 4)
  | Instr IndirectX SBC => ROk (cycles 6)
  | Instr IndirectY SBC => ROk (cycles_with_extra_cost 5)
  | Instr Implied SEC => ROk (cycles 2)
  | Instr Implied SED => ROk (cycles 2)
  | Instr Implied SEI => ROk (cycles 2)
  | Instr ZeroPage STA => ROk (cycles 3)
  | Instr ZeroPageX STA => ROk (cycles 4)
  | Instr Absolute STA => ROk (cycles 4)
  | Instr AbsoluteX STA => ROk (cycles 5)
  | Instr AbsoluteY STA => ROk (cycles 5)
  | Instr IndirectX STA => ROk (cycles 6)
  | Instr IndirectY STA => ROk (cycles 6)
  | Instr ZeroPage STX => ROk (cycles 3)
  | Instr ZeroPageY STX => ROk (cycles 4)
  | Instr Absolute STX => ROk (cycles 4)
  | Instr ZeroPage STY => ROk (cycles 3)
  | Instr ZeroPageX STY => ROk (cycles 4)
  | Instr Absolute STY => ROk (cycles 4)
  | Instr Implied TAX => ROk (cycles 2)
  | Instr Implied TAY => ROk (cycles 2)
  | Instr Implied TSX => ROk (cycles 2)
  | Instr Implied TXA => ROk (cycles 2)
  | Instr Implied TXS => ROk (cycles 2)
  | Instr Implied TYA => ROk (cycles 2)
  | _ => RErr "Instruction timings not found"
  end.

(** [impl FromStr for Operation]: [from_str]. *)
Definition Operation_from_str (s : string) : result Operation :=
  if String.eqb s "ADC" then ROk ADC else
  if String.eqb s "AND" then ROk AND else
  if String.eqb s "ASL" then ROk ASL else
  if String.eqb s "BCC" then ROk BCC else
  if String.eqb s "BCS" then ROk BCS else
  if String.eqb s "BEQ" then ROk BEQ else
  if String.eqb s "BIT" then ROk BIT else
  if String.eqb s "BMI" then ROk BMI else
  if String.eqb s "BNE" then ROk BNE else
  if String.eqb s "BPL" then ROk BPL else
  if String.eqb s "BRK" then ROk BRK else
  if String.eqb s "BVC" then ROk BVC else
  if String.eqb s "BVS" then ROk BVS else
  if String.eqb s "CLC" then ROk CLC else
  if String.eqb s "CLD" then ROk CLD else
  if String.eqb s "CLI" then ROk CLI else
  if String.eqb s "CLV" then ROk CLV else
  if String.eqb s "CMP" then ROk CMP else
  if String.eqb s "CPX" then ROk CPX else
  if String.eqb s "CPY" then ROk CPY else
  if String.eqb s "DEC" then ROk DEC else
  if String.eqb s "DEX" then ROk DEX else
  if String.eqb s "DEY" then ROk DEY else
  if String.eqb s "EOR" then ROk EOR else
  if String.eqb s "INC" then ROk INC else
  if String.eqb s "INX" then ROk INX else
  if String.eqb s "INY" then ROk INY else
  if String.eqb s "JMP" then ROk JMP else
  if String.eqb s "JSR" then ROk JSR else
  if String.eqb s "LDA" then ROk LDA else
  if String.eqb s "LDX" then ROk LDX else
  if String.eqb s "LDY" then ROk LDY else
  if String.eqb s "LSR" then ROk LSR else
  if String.eqb s "NOP" then ROk NOP else
  if String.eqb s "ORA" then ROk ORA else
  if String.eqb s "PHA" then ROk PHA else
  if String.eqb s "PHP" then ROk PHP else
  if String.eqb s "PLA" then ROk PLA else
  if String.eqb s "PLP" then ROk PLP else
  if String.eqb s "ROL" then ROk ROL else
  if String.eqb s "ROR" then ROk ROR else
  if String.eqb s "RTI" then ROk RTI else
  if String.eqb s "RTS" then ROk RTS else
  if String.eqb s "SBC" then ROk SBC else
  if String.eqb s "SEC" then ROk SEC else
  if String.eqb s "SED" then ROk SED else
  if String.eqb s "SEI" then ROk SEI else
  if String.eqb s "STA" then ROk STA else
  if String.eqb s "STX" then ROk STX else
  if String.eqb s "STY" then ROk STY else
  if String.eqb s "TAX" then ROk TAX else
  if String.eqb s "TAY" then ROk TAY else
  if String.eqb s "TSX" then ROk TSX else
  if String.eqb s "TXA" then ROk TXA else
  if String.eqb s "TXS" then ROk TXS else
  if String.eqb s "TYA" then ROk TYA else
  RErr "Couldn't find matching instruction".

(** [write_word_to_memory]: little-endian, low byte first. *)
Definition write_word_to_memory (index : Z) (value : Z) : M unit :=
  write_byte_to_memory index (value mod 256) ;;
  write_byte_to_memory (index + 1) (value / 256).

(** The mnemonic [Operation::from_str] accepts for each operation. *)
Definition operation_name (op : Operation) : string :=
  match op with
  | ADC => "ADC" | AND => "AND" | ASL => "ASL" | BCC => "BCC" | BCS => "BCS"
  | BEQ => "BEQ" | BIT => "BIT" | BMI => "BMI" | BNE => "BNE" | BPL => "BPL"
  | BRK => "BRK" | BVC => "BVC" | BVS => "BVS" | CLC => "CLC" | CLD => "CLD"
  | CLI => "CLI" | CLV => "CLV" | CMP => "CMP" | CPX => "CPX" | CPY => "CPY"
  | DEC => "DEC" | DEX => "DEX" | DEY => "DEY" | EOR => "EOR" | INC => "INC"
  | INX => "INX" | INY => "INY" | JMP => "JMP" | JSR => "JSR" | LDA => "LDA"
  | LDX => "LDX" | LDY => "LDY" | LSR => "LSR" | NOP => "NOP" | ORA => "ORA"
  | PHA => "PHA" | PHP => "PHP" | PLA => "PLA" | PLP => "PLP" | ROL => "ROL"
  | ROR => "ROR" | RTI => "RTI" | RTS => "RTS" | SBC => "SBC" | SEC => "SEC"
  | SED => "SED" | SEI => "SEI" | STA => "STA" | STX => "STX" | STY => "STY"
  | TAX => "TAX" | TAY => "TAY" | TSX => "TSX" | TXA => "TXA" | TXS => "TXS"
  | TYA => "TYA"
  end.

(** A byte read as a two's-complement signed value. *)
Definition signed_byte (v : Z) : Z := if v >? 127 then v - 256 else v.

(** ** Definitions and lemmas used by the claims *)

(** The Fibonacci program of the repository's integration test
    ([fibonacci_test]) stops at its first transfer, TYA, at address 5. *)
Definition fibonacci_image : list Z :=
  app [0x18; 0xA2; 0x00; 0xA0; 0x01; 0x98; 0x86; 0x20; 0x65; 0x20; 0xB0; 0x08;
       0x48; 0xA4; 0x20; 0xAA; 0x90; 0xf5; 0x70; 0x00; 0x00] (repeat 0 512).

(** *** Read-modify-write operations *)

Definition read_modify_write_ops : list Operation := [ASL; LSR; ROL; ROR; INC; DEC].

(** The result of a read-modify-write operation on [v] with carry in [c],
    as the 6502 defines it. *)
Definition rmw_result (op : Operation) (v c : Z) : Z :=
  match op with
  | ASL => (2 * v) mod 256
  | LSR => v / 2
  | ROL => (2 * v) mod 256 + c
  | ROR => v / 2 + 128 * c
  | INC => (v + 1) mod 256
  | DEC => (v - 1) mod 256
  | _ => v
  end.

(** The bit shifted out into Carry, for the shifts and rotates. *)
Definition rmw_carry_out (op : Operation) (v : Z) : option bool :=
  match op with
  | ASL | ROL => Some (Z.testbit v 7)
  | LSR | ROR => Some (Z.testbit v 0)
  | _ => None
  end.

Definition shift_exprs_ok (v : Z) : bool :=
  forallb (fun c =>
    (Z.land (Z.shiftl v 1) 255 =? (2 * v) mod 256)
    && (Z.shiftr v 1 =? v / 2)
    && (Z.lor (Z.land (Z.shiftl v 1) 255) c =? (2 * v) mod 256 + c)
    && (Z.lor (Z.shiftr v 1) (Z.land (Z.shiftl c 7) 255) =? v / 2 + 128 * c))
    [0; 1].

Lemma shift_exprs_all : all_below 256 shift_exprs_ok = true.
Proof. vm_compute. reflexivity. Qed.

Lemma shift_exprs (v c : Z) :
  0 <= v < 256 -> 0 <= c <= 1 ->
  Z.land (Z.shiftl v 1) 255 = (2 * v) mod 256
  /\ Z.shiftr v 1 = v / 2
  /\ Z.lor (Z.land (Z.shiftl v 1) 255) c = (2 * v) mod 256 + c
  /\ Z.lor (Z.shiftr v 1) (Z.land (Z.shiftl c 7) 255) = v / 2 + 128 * c.
Proof.
  intros Hv Hc.
  pose proof (all_below_spec _ _ shift_exprs_all v Hv) as H.
  unfold shift_exprs_ok in H. rewrite forallb_forall in H.
  assert (Hin : In c [0; 1]) by (simpl; lia).
  specialize (H c Hin).
  repeat rewrite andb_true_iff in H. repeat rewrite Z.eqb_eq in H.
  tauto.
Qed.

(** *** Branches *)

(** The branch conditions as the 6502 names them (spec §4.3), read from
    the status byte's bit layout (spec §3). *)
Definition branch_condition_holds (op : Operation) (st : Z) : bool :=
  match op with
  | BCC => negb (Z.testbit st 0)
  | BCS => Z.testbit st 0
  | BEQ => Z.testbit st 1
  | BNE => negb (Z.testbit st 1)
  | BMI => Z.testbit st 7
  | BPL => negb (Z.testbit st 7)
  | BVC => negb (Z.testbit st 6)
  | BVS => Z.testbit st 6
  | _ => false
  end.
Lemma checked_add_ok (w a b : Z) : a + b < 2 ^ w -> checked_add w a b = ROk (a + b).
Proof. intros H. unfold checked_add. apply Z.ltb_lt in H. rewrite H. reflexivity. Qed.


(** *** Operand resolution: the states used below *)

(** IndirectY at program counter 0: base byte 0x10, pointer 0x2000 stored
    little-endian at 0x10/0x11, X = 1, Y = 0. *)
Definition indirect_y_state : ComputerState :=
  mkComputerState (app [0x10] (app (repeat 0 15) [0x00; 0x20]))
                  (mkRegisterFile 0 1 0 0 0 0).

(** ZeroPageX at program counter 0: base byte 0xFF, X = 1. *)
Definition zero_page_x_state : ComputerState :=
  mkComputerState [0xFF] (mkRegisterFile 0 1 0 0 0 0).

(** *** Errors of [step]: what has changed when an error is raised *)











(** ** Claims *)

(** Claim C1: the stores (STA, STX, STY) and the transfers (TAX, TAY, TSX,
    TXA, TXS, TYA) have no arm in [execute_operation]: whatever the operand,
    executing one of them returns [Err("Unimplemented operation")] and
    leaves the state as it was. *)
Lemma execute_store_transfer_unimplemented (op : Operation) (operand : Operand.Operand)
  (s : ComputerState) :
  In op [STA; STX; STY; TAX; TAY; TSX; TXA; TXS; TYA] ->
  execute_operation op operand s = (s, RErr "Unimplemented operation").
Proof.
  intros H. simpl in H.
  repeat (destruct H as [<-|H]; [reflexivity|]). destruct H.
Qed.

Lemma execute_store_transfer_unimplemented_witness :
  In STA [STA; STX; STY; TAX; TAY; TSX; TXA; TXS; TYA]
  /\ execute_operation STA (Operand.Address 0) (small_state 7 0 0)
     = (small_state 7 0 0, RErr "Unimplemented operation").
Proof.
  split; [simpl; tauto|].
  apply execute_store_transfer_unimplemented. simpl. tauto.
Defined.

(* The Fibonacci program stops at TYA. *)
Example fibonacci_stops_at_tya :
  multiple_steps (initialize_from_image fibonacci_image) 600
  = RErr "Unimplemented operation".
Proof. vm_compute. reflexivity. Qed.

(** Claim C4 (counterexample): an empty image gives an empty memory;
    reading address 0 of it panics instead of returning 0. *)
Lemma initialize_from_image_empty_read_panics :
  snd (get_byte_from_memory 0 (initialize_from_image [])) = RPanic.
Proof. reflexivity. Qed.

(** Claim C4 (amended): [initialize_from_image] uses the image itself as the
    whole memory, without padding: reading address [a] returns the image
    byte when [a] is below the image's length and panics otherwise; the
    read leaves the state unchanged. *)
Lemma initialize_from_image_read (image : list Z) (a : Z) :
  0 <= a ->
  get_byte_from_memory a (initialize_from_image image)
  = (initialize_from_image image,
     if a <? Z.of_nat (List.length image) then ROk (nth (Z.to_nat a) image 0) else RPanic).
Proof.
  intros Ha. unfold get_byte_from_memory, mem_get. simpl.
  replace (a <? 0) with false by (symmetry; apply Z.ltb_ge; lia).
  destruct (Z.ltb_spec a (Z.of_nat (List.length image))) as [Hlt|Hge].
  - rewrite (nth_error_nth' image 0) by lia. reflexivity.
  - replace (nth_error image (Z.to_nat a)) with (@None Z); [reflexivity|].
    symmetry. apply nth_error_None. lia.
Qed.

Lemma initialize_from_image_read_witness :
  0 <= 1
  /\ get_byte_from_memory 1 (initialize_from_image [5; 6])
     = (initialize_from_image [5; 6], ROk 6).
Proof.
  split; [lia|].
  rewrite (initialize_from_image_read [5; 6] 1) by lia. reflexivity.
Defined.

(** Claim C7: the opcode table is a one-to-one correspondence: encoding a
    decoded byte gives the byte back, and decoding the encoding of a pair
    of the table gives the pair back. *)
Theorem opcode_table_roundtrip :
  (forall bc i, bytecode_to_instruction bc = ROk i -> instruction_to_bytecode i = ROk bc)
  /\ (forall bc i, In (bc, i) INSTRUCTION_TUPLES ->
        match instruction_to_bytecode i with
        | ROk b => bytecode_to_instruction b = ROk i
        | _ => False
        end).
Proof.
  pose proof table_encodes_back as He. pose proof table_decodes_back as Hd.
  rewrite forallb_forall in He, Hd.
  split.
  - intros bc i H. apply decode_instruction_in in H.
    specialize (He _ H). simpl in He.
    destruct (instruction_to_bytecode i) as [b| |]; try discriminate.
    apply Z.eqb_eq in He. subst. reflexivity.
  - intros bc i H. pose proof (He _ H) as He1. specialize (Hd _ H). simpl in He1, Hd.
    destruct (instruction_to_bytecode i) as [b| |]; try discriminate.
    apply Z.eqb_eq in He1. subst b.
    destruct (bytecode_to_instruction bc) as [j| |]; try discriminate.
    destruct (Instruction_eq_dec j i) as [->|]; [reflexivity|discriminate].
Qed.

Lemma opcode_table_roundtrip_witness :
  bytecode_to_instruction 105 = ROk (Instr Immediate ADC)
  /\ instruction_to_bytecode (Instr Immediate ADC) = ROk 105.
Proof.
  split; [reflexivity|].
  apply (proj1 opcode_table_roundtrip). reflexivity.
Defined.

(** Claim C5: ADC with accumulator [a], operand [b] and carry in (bit 0 of
    the status byte): the accumulator becomes the low 8 bits of
    [a + b + carry_in], Carry (bit 0) is bit 8 of that sum, Overflow (bit 6)
    holds exactly when [b] and [a] have the same sign bit and the result's
    sign bit differs from it, and Zero (bit 1) and Negative (bit 7) come
    from the 8-bit result; nothing else changes. *)
Theorem adc_result_and_flags (m : list Z) (a x0 y0 st sp pc b : Z) :
  0 <= a < 256 -> 0 <= b < 256 -> 0 <= st < 256 ->
  let c := Z.b2z (Z.testbit st 0) in
  let sum16 := a + b + c in
  let res := sum16 mod 256 in
  exists st',
    execute_operation ADC (Operand.Immediate b)
      (mkComputerState m (mkRegisterFile a x0 y0 st sp pc))
    = (mkComputerState m (mkRegisterFile res x0 y0 st' sp pc), ROk tt)
    /\ Z.testbit st' 0 = Z.testbit sum16 8
    /\ Z.testbit st' 6 = Bool.eqb (Z.testbit b 7) (Z.testbit a 7)
                         && negb (Bool.eqb (Z.testbit res 7) (Z.testbit a 7))
    /\ Z.testbit st' 1 = (res =? 0)
    /\ Z.testbit st' 7 = Z.testbit res 7.
Proof.
  intros Ha Hb Hst c sum16 res.
  cbn -[Z.testbit update_status_bit status_bit Z.land Z.shiftl Z.add Z.modulo
        is_negative Z.b2z Z.eqb].
  rewrite status_bit_testbit by lia. cbn [flag_index].
  replace (b + Z.b2z (Z.testbit st 0) + a) with sum16 by (subst sum16 c; lia).
  assert (Hc : 0 <= c <= 1) by (subst c; destruct (Z.testbit st 0); simpl; lia).
  assert (Hs : 0 <= sum16 < 512) by (subst sum16; lia).
  assert (Hr : 0 <= res < 256) by (subst res; apply Z.mod_pos_bound; lia).
  change 255 with (Z.ones 8). rewrite Z.land_ones by lia. change (2 ^ 8) with 256.
  fold res.
  rewrite (land_bit res 7) by lia. rewrite (land_bit sum16 8) by lia.
  eexists. split; [reflexivity|].
  cbn [status registers with_status].
  status_bits.
  unfold is_negative.
  repeat split; try reflexivity.
  destruct (Z.testbit a 7), (Z.testbit b 7), (Z.testbit res 7); reflexivity.
Qed.

Lemma adc_result_and_flags_witness :
  0 <= 200 < 256 /\ 0 <= 100 < 256 /\ 0 <= 1 < 256
  /\ exists st',
       execute_operation ADC (Operand.Immediate 100)
         (mkComputerState [] (mkRegisterFile 200 0 0 1 0 0))
       = (mkComputerState [] (mkRegisterFile 45 0 0 st' 0 0), ROk tt)
       /\ Z.testbit st' 0 = true.
Proof.
  split; [lia|]. split; [lia|]. split; [lia|].
  destruct (adc_result_and_flags [] 200 0 0 1 0 0 100) as [st' [H1 [H2 _]]];
    [lia|lia|lia|].
  exists st'. split; [exact H1|]. rewrite H2. reflexivity.
Defined.

(** ** Read-modify-write operations *)

(** Claim C10: executing a read-modify-write operation (ASL, LSR, ROL, ROR,
    INC, DEC) on an Immediate operand returns
    [Err("Cannot set immediate operand value")]; the accumulator, X, Y, the
    stack pointer, the program counter and memory are unchanged, but the
    status byte has already been updated: Zero and Negative from the
    computed result and, for the shifts and rotates, Carry from the bit
    shifted out. *)
Theorem rmw_immediate_error_after_flags (op : Operation) (m : list Z)
  (a x0 y0 st sp pc v : Z) :
  In op read_modify_write_ops -> 0 <= v < 256 -> 0 <= st < 256 ->
  let c := Z.b2z (Z.testbit st 0) in
  let res := rmw_result op v c in
  exists st',
    execute_operation op (Operand.Immediate v)
      (mkComputerState m (mkRegisterFile a x0 y0 st sp pc))
    = (mkComputerState m (mkRegisterFile a x0 y0 st' sp pc),
       RErr "Cannot set immediate operand value")
    /\ Z.testbit st' 1 = (res =? 0)
    /\ Z.testbit st' 7 = Z.testbit res 7
    /\ Z.testbit st' 0 = match rmw_carry_out op v with
                         | Some b => b
                         | None => Z.testbit st 0
                         end.
Proof.
  intros Hin Hv Hst c res.
  assert (Hc : 0 <= c <= 1) by (subst c; destruct (Z.testbit st 0); simpl; lia).
  destruct (shift_exprs v c Hv Hc) as (E1 & E2 & E3 & E4).
  simpl in Hin.
  repeat destruct Hin as [<-|Hin]; [..|destruct Hin];
  cbn -[Z.testbit update_status_bit status_bit Z.land Z.lor Z.shiftl Z.shiftr Z.add Z.sub Z.mul Z.div Z.modulo Z.b2z Z.eqb Z.pow] in *;
  rewrite ?status_bit_testbit by lia; cbn [flag_index] in *; fold c.
  all: subst res; clearbody c.
  all: rewrite ?E3, ?E4, ?E1, ?E2; unfold wrapping_add, wrapping_sub; change (2 ^ 8) with 256.
  all: rewrite ?land_bit0 by lia.
  all: repeat match goal with
         |- context [negb (Z.land ?w (Z.shiftl 1 ?k) =? 0)] =>
           rewrite (land_bit w k) by (clear -Hv Hc; Z.div_mod_to_equations; lia)
       end.
  all: eexists; split; [reflexivity|].
  all: cbn [status registers with_status rmw_carry_out]; status_bits.
  all: repeat split; reflexivity.
Qed.

Lemma rmw_immediate_error_after_flags_witness :
  In ASL read_modify_write_ops /\ 0 <= 128 < 256 /\ 0 <= 0 < 256
  /\ exists st',
       execute_operation ASL (Operand.Immediate 128)
         (mkComputerState [] (mkRegisterFile 5 0 0 0 0 0))
       = (mkComputerState [] (mkRegisterFile 5 0 0 st' 0 0),
          RErr "Cannot set immediate operand value")
       /\ Z.testbit st' 0 = true /\ Z.testbit st' 1 = true.
Proof.
  split; [simpl; tauto|]. split; [lia|]. split; [lia|].
  destruct (rmw_immediate_error_after_flags ASL [] 5 0 0 0 0 0 128)
    as [st' [H1 [H2 [_ H4]]]]; [simpl; tauto|lia|lia|].
  exists st'. split; [exact H1|]. split; [rewrite H4; reflexivity|].
  rewrite H2. reflexivity.
Defined.

(** ** Branches *)




(** ** Operand resolution *)

(** Claim C3: IndirectY at program counter 0 with base byte 0x10, pointer
    0x2000 stored at 0x10/0x11, X = 1 and Y = 0 resolves to 0x2001 (the
    claim expects pointer + Y = 0x2000): the source adds X, not Y, to the
    pointer. *)
Theorem indirect_y_indexes_by_x :
  fetch_operand IndirectY indirect_y_state
  = (mkComputerState indirect_y_state.(memory) (mkRegisterFile 0 1 0 0 0 1),
     ROk (Operand.Address 0x2001)).
Proof. reflexivity. Qed.

(** Claim C8: ZeroPageX with base byte 0xFF and X = 1: the [u8] addition
    [address + offset] overflows before the [& 0xff] mask, so resolving the
    operand panics (debug build) instead of yielding address 0x00. *)
Theorem zero_page_x_base_overflow_panics :
  snd (fetch_operand ZeroPageX zero_page_x_state) = RPanic.
Proof. reflexivity. Qed.

(** ** Running several steps *)

(** Claim C9 (counterexample): a machine whose first instruction fails (TXS,
    0x9A) and one that fails at its second instruction (NOP then TXS)
    complete 0 and 1 steps, yet [multiple_steps] returns the same value
    for both: the result does not say how many steps completed. *)
Lemma multiple_steps_result_has_no_count :
  multiple_steps (initialize_from_image [0x9A]) 2 = RErr "Unimplemented operation"
  /\ multiple_steps (initialize_from_image [0xEA; 0x9A]) 2 = RErr "Unimplemented operation"
  /\ step (initialize_from_image [0x9A]) = RErr "Unimplemented operation"
  /\ exists s', step (initialize_from_image [0xEA; 0x9A]) = ROk s'
                /\ step s' = RErr "Unimplemented operation".
Proof.
  split; [reflexivity|]. split; [reflexivity|]. split; [reflexivity|].
  eexists. split; [reflexivity|]. reflexivity.
Qed.

(** Claim C9 (amended): [multiple_steps s n] fails with [e] exactly when,
    for some [k < n], the first [k] steps succeed and the next step fails
    with [e]; the failure is returned alone, without the number of
    completed steps or any state. *)
Theorem multiple_steps_first_failure (s : ComputerState) (n : nat) (e : string) :
  multiple_steps s n = RErr e
  <-> exists k s', (k < n)%nat /\ multiple_steps s k = ROk s' /\ step s' = RErr e.
Proof.
  revert s. induction n as [|n IH]; intros s; simpl.
  - split; [discriminate|]. intros (k & s' & Hk & _). lia.
  - destruct (step s) as [s1|e0|] eqn:Hs.
    + rewrite IH. split.
      * intros (k & s' & Hk & H1 & H2). exists (S k), s'.
        split; [lia|]. simpl. rewrite Hs. split; assumption.
      * intros ([|k] & s' & Hk & H1 & H2).
        -- simpl in H1. injection H1 as <-. congruence.
        -- simpl in H1. rewrite Hs in H1. exists k, s'. split; [lia|]. auto.
    + split.
      * intros H. injection H as <-. exists O, s. split; [lia|]. auto.
      * intros ([|k] & s' & Hk & H1 & H2); simpl in H1.
        -- injection H1 as <-. congruence.
        -- rewrite Hs in H1. discriminate.
    + split; [discriminate|].
      intros ([|k] & s' & Hk & H1 & H2); simpl in H1.
      * injection H1 as <-. congruence.
      * rewrite Hs in H1. discriminate.
Qed.

Lemma multiple_steps_first_failure_witness :
  multiple_steps (initialize_from_image [0xEA; 0x9A]) 5 = RErr "Unimplemented operation".
Proof.
  apply (proj2 (multiple_steps_first_failure (initialize_from_image [0xEA; 0x9A]) 5
                 "Unimplemented operation")).
  exists 1%nat, (mkComputerState [0xEA; 0x9A] (mkRegisterFile 0 0 0 0 0 1)).
  split; [lia|]. split; reflexivity.
Defined.

(** ** Errors of [step] *)



(** ** Further properties of the code *)

Ltac run_monad :=
  cbv beta iota zeta delta [bind ret fail panic lift get_registers modify_registers
    memory registers accumulator x y status stack_pointer program_counter
    with_accumulator with_x with_y with_status with_stack_pointer with_program_counter
    checked_add checked_sub get_byte_from_memory get_word_from_memory
    write_byte_to_memory write_word_to_memory pull_byte_from_stack pull_word_from_stack
    push_byte_to_stack push_word_to_stack get_status_flag set_status_flag
    set_zero_and_negative_flags advance_program_counter set_program_counter
    get_operand_value set_operand_value
    execute_operation execute_add_with_carry execute_and execute_left_shift
    execute_branch_if execute_bit_test execute_compare execute_increment
    execute_increment_x execute_increment_y execute_exclusive_or execute_jump
    execute_load_accumulator execute_load_x execute_load_y execute_right_shift
    execute_inclusive_or execute_pull_accumulator execute_pull_status
    execute_rotate_right execute_rotate_left execute_return_from_interrupt
    execute_return_from_subroutine execute_substract_with_carry].

(** *** Unfolding the monad *)

Lemma replace_nth_spec (m : list Z) (n : nat) (v : Z) :
  (n < List.length m)%nat ->
  exists m', replace_nth m n v = Some m' /\ List.length m' = List.length m
             /\ nth_error m' n = Some v
             /\ (forall k, k <> n -> nth_error m' k = nth_error m k).
Proof.
  revert n. induction m as [|h t IH]; intros [|n] Hn; simpl in Hn; try lia.
  - exists (v :: t). split; [reflexivity|]. split; [reflexivity|].
    split; [reflexivity|]. intros [|k] Hk; [congruence|reflexivity].
  - destruct (IH n ltac:(lia)) as (t' & E & L & G & O).
    exists (h :: t'). simpl. rewrite E. split; [reflexivity|].
    split; [simpl; congruence|]. split; [exact G|].
    intros [|k] Hk; [reflexivity|]. simpl. apply O. congruence.
Qed.

Lemma mem_set_spec (m : list Z) (i v : Z) :
  0 <= i < Z.of_nat (List.length m) ->
  exists m', mem_set m i v = Some m' /\ List.length m' = List.length m
             /\ mem_get m' i = Some v
             /\ (forall j, j <> i -> mem_get m' j = mem_get m j).
Proof.
  intros Hi. unfold mem_set, mem_get.
  assert (E0 : (i <? 0) = false) by (apply Z.ltb_ge; lia). rewrite E0.
  destruct (replace_nth_spec m (Z.to_nat i) v) as (m' & E & L & G & O); [lia|].
  exists m'. rewrite E. split; [reflexivity|]. split; [exact L|]. split; [exact G|].
  intros j Hj. destruct (j <? 0) eqn:Ej; [reflexivity|].
  apply Z.ltb_ge in Ej. apply O. intros Hn. apply Hj. lia.
Qed.

Lemma mem_get_none (m : list Z) (i : Z) :
  ~ (0 <= i < Z.of_nat (List.length m)) -> mem_get m i = None.
Proof.
  intros Hi. unfold mem_get. destruct (i <? 0) eqn:E; [reflexivity|].
  apply Z.ltb_ge in E. apply nth_error_None. lia.
Qed.

Lemma replace_nth_none (m : list Z) (n : nat) (v : Z) :
  (List.length m <= n)%nat -> replace_nth m n v = None.
Proof.
  revert n. induction m as [|h t IH]; intros [|n] Hn; simpl in *; try lia; auto.
  rewrite IH by lia. reflexivity.
Qed.

Lemma mem_set_none (m : list Z) (i v : Z) :
  ~ (0 <= i < Z.of_nat (List.length m)) -> mem_set m i v = None.
Proof.
  intros Hi. unfold mem_set. destruct (i <? 0) eqn:E; [reflexivity|].
  apply Z.ltb_ge in E. apply replace_nth_none. lia.
Qed.

Lemma bind_ok {A B} (m : M A) (f : A -> M B) (s s' : ComputerState) (a : A) :
  m s = (s', ROk a) -> bind m f s = f a s'.
Proof. intros H. unfold bind. rewrite H. reflexivity. Qed.

Lemma wrapping_sub_add_1 (sp : Z) :
  0 <= sp < 256 -> wrapping_add 8 (wrapping_sub 8 sp 1) 1 = sp.
Proof.
  intros H. unfold wrapping_add, wrapping_sub. change (2 ^ 8) with 256.
  rewrite Z.add_mod_idemp_l by lia. replace (sp - 1 + 1) with sp by lia.
  apply Z.mod_small. lia.
Qed.

Lemma wrapping_sub_1_range (sp : Z) : 0 <= wrapping_sub 8 sp 1 < 256.
Proof. unfold wrapping_sub. change (2 ^ 8) with 256. apply Z.mod_pos_bound. lia. Qed.

Lemma wrapping_sub_1_ne (sp : Z) : 0 <= sp < 256 -> wrapping_sub 8 sp 1 <> sp.
Proof.
  intros H E. unfold wrapping_sub in E. change (2 ^ 8) with 256 in E.
  revert E. Z.div_mod_to_equations. lia.
Qed.

Lemma push_byte_spec (m : list Z) (a x0 y0 st sp pc v : Z) :
  0 <= sp < 256 -> 512 <= Z.of_nat (List.length m) ->
  exists m',
    push_byte_to_stack v (mkComputerState m (mkRegisterFile a x0 y0 st sp pc))
    = (mkComputerState m' (mkRegisterFile a x0 y0 st (wrapping_sub 8 sp 1) pc), ROk tt)
    /\ List.length m' = List.length m
    /\ mem_get m' (sp + 256) = Some v
    /\ (forall j, j <> sp + 256 -> mem_get m' j = mem_get m j).
Proof.
  intros Hsp Hm.
  destruct (mem_set_spec m (sp + 256) v) as (m' & E & L & G & O); [lia|].
  exists m'. split; [|auto].
  unfold push_byte_to_stack. run_monad. rewrite E. reflexivity.
Qed.

Lemma pull_byte_spec (m : list Z) (a x0 y0 st sp pc v : Z) :
  mem_get m (wrapping_add 8 sp 1 + 256) = Some v ->
  pull_byte_from_stack (mkComputerState m (mkRegisterFile a x0 y0 st sp pc))
  = (mkComputerState m (mkRegisterFile a x0 y0 st (wrapping_add 8 sp 1) pc), ROk v).
Proof. intros H. unfold pull_byte_from_stack. run_monad. rewrite H. reflexivity. Qed.

(** *** Memory and the stack *)

(** [push_byte_to_stack] then [pull_byte_from_stack] returns the pushed
    byte and restores every register, the stack pointer included (also when
    it wraps from 0 to 255 and back); memory changes only at
    [0x100 + stack_pointer], which now holds the byte. *)
Theorem stack_push_pull_byte (m : list Z) (a x0 y0 st sp pc v : Z) :
  0 <= sp < 256 -> 512 <= Z.of_nat (List.length m) ->
  exists m',
    (push_byte_to_stack v ;; pull_byte_from_stack)
      (mkComputerState m (mkRegisterFile a x0 y0 st sp pc))
    = (mkComputerState m' (mkRegisterFile a x0 y0 st sp pc), ROk v)
    /\ List.length m' = List.length m
    /\ mem_get m' (sp + 256) = Some v
    /\ (forall j, j <> sp + 256 -> mem_get m' j = mem_get m j).
Proof.
  intros Hsp Hm.
  destruct (push_byte_spec m a x0 y0 st sp pc v Hsp Hm) as (m' & E & L & G & O).
  exists m'. split; [|auto].
  rewrite (bind_ok _ _ _ _ _ E).
  rewrite <- (wrapping_sub_add_1 sp Hsp) at 2.
  apply pull_byte_spec. rewrite wrapping_sub_add_1 by exact Hsp. exact G.
Qed.

Lemma stack_push_pull_byte_witness :
  exists m',
    (push_byte_to_stack 7 ;; pull_byte_from_stack)
      (mkComputerState (repeat 0 512) (mkRegisterFile 0 0 0 0 0 0))
    = (mkComputerState m' (mkRegisterFile 0 0 0 0 0 0), ROk 7)
    /\ List.length m' = List.length (repeat 0 512)
    /\ mem_get m' (0 + 256) = Some 7
    /\ (forall j, j <> 0 + 256 -> mem_get m' j = mem_get (repeat 0 512) j).
Proof.
  apply (stack_push_pull_byte (repeat 0 512) 0 0 0 0 0 0 7);
    [lia | rewrite repeat_length; lia].
Defined.

Lemma push_word_spec (m : list Z) (a x0 y0 st sp pc v : Z) :
  0 <= sp < 256 -> 512 <= Z.of_nat (List.length m) -> 0 <= v < 65536 ->
  exists m',
    push_word_to_stack v (mkComputerState m (mkRegisterFile a x0 y0 st sp pc))
    = (mkComputerState m' (mkRegisterFile a x0 y0 st
                             (wrapping_sub 8 (wrapping_sub 8 sp 1) 1) pc), ROk tt)
    /\ List.length m' = List.length m
    /\ (forall j, j <> sp + 256 -> j <> wrapping_sub 8 sp 1 + 256 ->
                  mem_get m' j = mem_get m j)
    /\ (forall a' x' y' st' pc',
          pull_word_from_stack
            (mkComputerState m' (mkRegisterFile a' x' y' st'
                                   (wrapping_sub 8 (wrapping_sub 8 sp 1) 1) pc'))
          = (mkComputerState m' (mkRegisterFile a' x' y' st' sp pc'), ROk v)).
Proof.
  intros Hsp Hm Hv.
  set (sp1 := wrapping_sub 8 sp 1).
  assert (Hsp1 : 0 <= sp1 < 256) by apply wrapping_sub_1_range.
  assert (Hne : sp1 <> sp) by (apply wrapping_sub_1_ne; exact Hsp).
  destruct (push_byte_spec m a x0 y0 st sp pc (v / 256) Hsp Hm) as (m1 & E1 & L1 & G1 & O1).
  destruct (push_byte_spec m1 a x0 y0 st sp1 pc (v mod 256) Hsp1 ltac:(lia))
    as (m2 & E2 & L2 & G2 & O2).
  exists m2. split; [|split; [congruence|split]].
  - unfold push_word_to_stack. rewrite (bind_ok _ _ _ _ _ E1). exact E2.
  - intros j Hj1 Hj2. rewrite O2 by exact Hj2. apply O1. exact Hj1.
  - intros a' x' y' st' pc'. unfold pull_word_from_stack.
    assert (Gl : mem_get m2 (wrapping_add 8 (wrapping_sub 8 sp1 1) 1 + 256) = Some (v mod 256))
      by (rewrite wrapping_sub_add_1 by exact Hsp1; exact G2).
    rewrite (bind_ok _ _ _ _ _ (pull_byte_spec _ a' x' y' st' _ pc' _ Gl)).
    rewrite wrapping_sub_add_1 by exact Hsp1.
    assert (Gh : mem_get m2 (wrapping_add 8 sp1 1 + 256) = Some (v / 256))
      by (unfold sp1; rewrite wrapping_sub_add_1 by exact Hsp; rewrite O2 by lia; exact G1).
    rewrite (bind_ok _ _ _ _ _ (pull_byte_spec _ a' x' y' st' _ pc' _ Gh)).
    unfold sp1. rewrite wrapping_sub_add_1 by exact Hsp.
    unfold ret. do 2 f_equal. Z.div_mod_to_equations. lia.
Qed.

(** [push_word_to_stack] (high byte first) then [pull_word_from_stack]
    (low byte first) returns the pushed word and restores every register;
    memory changes only in the two stack slots written. *)
Theorem stack_push_pull_word (m : list Z) (a x0 y0 st sp pc v : Z) :
  0 <= sp < 256 -> 512 <= Z.of_nat (List.length m) -> 0 <= v < 65536 ->
  exists m',
    (push_word_to_stack v ;; pull_word_from_stack)
      (mkComputerState m (mkRegisterFile a x0 y0 st sp pc))
    = (mkComputerState m' (mkRegisterFile a x0 y0 st sp pc), ROk v)
    /\ List.length m' = List.length m
    /\ (forall j, j <> sp + 256 -> j <> wrapping_sub 8 sp 1 + 256 ->
                  mem_get m' j = mem_get m j).
Proof.
  intros Hsp Hm Hv.
  destruct (push_word_spec m a x0 y0 st sp pc v Hsp Hm Hv) as (m' & E & L & O & P).
  exists m'. split; [|auto].
  rewrite (bind_ok _ _ _ _ _ E). apply P.
Qed.

Lemma stack_push_pull_word_witness :
  exists m',
    (push_word_to_stack 4660 ;; pull_word_from_stack)
      (mkComputerState (repeat 0 512) (mkRegisterFile 0 0 0 0 0 0))
    = (mkComputerState m' (mkRegisterFile 0 0 0 0 0 0), ROk 4660)
    /\ List.length m' = List.length (repeat 0 512)
    /\ (forall j, j <> 0 + 256 -> j <> wrapping_sub 8 0 1 + 256 ->
                  mem_get m' j = mem_get (repeat 0 512) j).
Proof.
  apply (stack_push_pull_word (repeat 0 512) 0 0 0 0 0 0 4660);
    [lia | rewrite repeat_length; lia | lia].
Defined.

(** *** Subroutines and the stack instructions *)

(** JSR to an address pushes [pc - 1] and jumps; RTS from the resulting
    state returns to the address after the JSR operand (the [pc] JSR was
    executed with) and restores the stack pointer; the rest of the
    registers are untouched. *)
Theorem jsr_then_rts_returns (m : list Z) (a x0 y0 st sp p target : Z) :
  0 <= sp < 256 -> 512 <= Z.of_nat (List.length m) -> 1 <= p < 65536 ->
  exists m' sp',
    execute_operation JSR (Operand.Address target)
      (mkComputerState m (mkRegisterFile a x0 y0 st sp p))
    = (mkComputerState m' (mkRegisterFile a x0 y0 st sp' target), ROk tt)
    /\ execute_operation RTS Operand.Implied
         (mkComputerState m' (mkRegisterFile a x0 y0 st sp' target))
       = (mkComputerState m' (mkRegisterFile a x0 y0 st sp p), ROk tt)
    /\ List.length m' = List.length m.
Proof.
  intros Hsp Hm Hp.
  destruct (push_word_spec m a x0 y0 st sp p (p - 1) Hsp Hm ltac:(lia))
    as (m' & E & L & O & P).
  exists m', (wrapping_sub 8 (wrapping_sub 8 sp 1) 1). split; [|split; [|exact L]].
  - cbv beta iota zeta delta [execute_operation execute_jump bind ret lift get_registers
      checked_sub program_counter registers set_program_counter modify_registers
      memory with_program_counter accumulator x y status stack_pointer].
    assert (Ep : (p - 1 <? 0) = false) by (apply Z.ltb_ge; lia). rewrite Ep.
    rewrite E. reflexivity.
  - cbv beta iota zeta delta [execute_operation execute_return_from_subroutine bind].
    rewrite P.
    cbv beta iota zeta delta [lift checked_add set_program_counter modify_registers ret
      memory registers with_program_counter accumulator x y status stack_pointer].
    assert (Ep : (p - 1 + 1 <? 2 ^ 16) = true) by (apply Z.ltb_lt; change (2 ^ 16) with 65536; lia).
    rewrite Ep. replace (p - 1 + 1) with p by lia. reflexivity.
Qed.

Lemma jsr_then_rts_returns_witness :
  exists m' sp',
    execute_operation JSR (Operand.Address 1792)
      (mkComputerState (repeat 0 512) (mkRegisterFile 0 0 0 0 255 1539))
    = (mkComputerState m' (mkRegisterFile 0 0 0 0 sp' 1792), ROk tt)
    /\ execute_operation RTS Operand.Implied
         (mkComputerState m' (mkRegisterFile 0 0 0 0 sp' 1792))
       = (mkComputerState m' (mkRegisterFile 0 0 0 0 255 1539), ROk tt)
    /\ List.length m' = List.length (repeat 0 512).
Proof.
  apply (jsr_then_rts_returns (repeat 0 512) 0 0 0 0 255 1539 1792);
    [lia | rewrite repeat_length; lia | lia].
Defined.

(** PHA then PLA restores the accumulator, X, Y, the stack pointer and the
    program counter; the status keeps its bits except Zero and Negative,
    which PLA sets from the accumulator. *)
Theorem pha_then_pla (m : list Z) (a x0 y0 st sp pc : Z) :
  0 <= a < 256 -> 0 <= st < 256 -> 0 <= sp < 256 -> 512 <= Z.of_nat (List.length m) ->
  exists m' st',
    (execute_operation PHA Operand.Implied ;; execute_operation PLA Operand.Implied)
      (mkComputerState m (mkRegisterFile a x0 y0 st sp pc))
    = (mkComputerState m' (mkRegisterFile a x0 y0 st' sp pc), ROk tt)
    /\ List.length m' = List.length m
    /\ (forall i, 0 <= i < 8 ->
          Z.testbit st' i = if i =? 1 then a =? 0
                            else if i =? 7 then Z.testbit a 7 else Z.testbit st i).
Proof.
  intros Ha Hst Hsp Hm.
  destruct (push_byte_spec m a x0 y0 st sp pc a Hsp Hm) as (m' & E & L & G & O).
  assert (E' : execute_operation PHA Operand.Implied
                 (mkComputerState m (mkRegisterFile a x0 y0 st sp pc))
               = (mkComputerState m' (mkRegisterFile a x0 y0 st (wrapping_sub 8 sp 1) pc),
                  ROk tt)) by exact E.
  rewrite (bind_ok _ _ _ _ _ E').
  assert (G' : mem_get m' (wrapping_add 8 (wrapping_sub 8 sp 1) 1 + 256) = Some a)
    by (rewrite wrapping_sub_add_1 by exact Hsp; exact G).
  cbv beta iota delta [execute_operation execute_pull_accumulator].
  rewrite (bind_ok _ _ _ _ _ (pull_byte_spec _ _ _ _ _ _ _ _ G')).
  rewrite wrapping_sub_add_1 by exact Hsp.
  run_monad. rewrite (land_bit a 7) by lia.
  eexists m', _. split; [reflexivity|]. split; [exact L|].
  intros i Hi. status_bits.
  destruct (Z.eqb_spec i 1), (Z.eqb_spec i 7); subst; try lia; reflexivity.
Qed.

Lemma pha_then_pla_witness :
  exists m' st',
    (execute_operation PHA Operand.Implied ;; execute_operation PLA Operand.Implied)
      (mkComputerState (repeat 0 512) (mkRegisterFile 128 0 0 3 255 0))
    = (mkComputerState m' (mkRegisterFile 128 0 0 st' 255 0), ROk tt)
    /\ List.length m' = List.length (repeat 0 512)
    /\ (forall i, 0 <= i < 8 ->
          Z.testbit st' i = if i =? 1 then 128 =? 0
                            else if i =? 7 then Z.testbit 128 7 else Z.testbit 3 i).
Proof.
  apply (pha_then_pla (repeat 0 512) 128 0 0 3 255 0);
    [lia | lia | lia | rewrite repeat_length; lia].
Defined.

(** PHP then PLP restores every register, the status byte included. *)
Theorem php_then_plp (m : list Z) (a x0 y0 st sp pc : Z) :
  0 <= sp < 256 -> 512 <= Z.of_nat (List.length m) ->
  exists m',
    (execute_operation PHP Operand.Implied ;; execute_operation PLP Operand.Implied)
      (mkComputerState m (mkRegisterFile a x0 y0 st sp pc))
    = (mkComputerState m' (mkRegisterFile a x0 y0 st sp pc), ROk tt)
    /\ List.length m' = List.length m.
Proof.
  intros Hsp Hm.
  destruct (push_byte_spec m a x0 y0 st sp pc st Hsp Hm) as (m' & E & L & G & O).
  assert (E' : execute_operation PHP Operand.Implied
                 (mkComputerState m (mkRegisterFile a x0 y0 st sp pc))
               = (mkComputerState m' (mkRegisterFile a x0 y0 st (wrapping_sub 8 sp 1) pc),
                  ROk tt)) by exact E.
  rewrite (bind_ok _ _ _ _ _ E').
  assert (G' : mem_get m' (wrapping_add 8 (wrapping_sub 8 sp 1) 1 + 256) = Some st)
    by (rewrite wrapping_sub_add_1 by exact Hsp; exact G).
  cbv beta iota delta [execute_operation execute_pull_status].
  rewrite (bind_ok _ _ _ _ _ (pull_byte_spec _ _ _ _ _ _ _ _ G')).
  rewrite wrapping_sub_add_1 by exact Hsp.
  exists m'. split; [reflexivity|exact L].
Qed.

Lemma php_then_plp_witness :
  exists m',
    (execute_operation PHP Operand.Implied ;; execute_operation PLP Operand.Implied)
      (mkComputerState (repeat 0 512) (mkRegisterFile 1 2 3 195 0 4))
    = (mkComputerState m' (mkRegisterFile 1 2 3 195 0 4), ROk tt)
    /\ List.length m' = List.length (repeat 0 512).
Proof.
  apply (php_then_plp (repeat 0 512) 1 2 3 195 0 4); [lia | rewrite repeat_length; lia].
Defined.

(** JSR with an operand that is not an address first pushes the return
    address [pc - 1] (the stack pointer moves down by two) and only then
    fails with "Jump must have Address-type operand". *)
Theorem jsr_non_address_pushes_then_fails (m : list Z) (a x0 y0 st sp p : Z)
  (operand : Operand.Operand) :
  0 <= sp < 256 -> 512 <= Z.of_nat (List.length m) -> 1 <= p < 65536 ->
  (forall t, operand <> Operand.Address t) ->
  exists m',
    execute_operation JSR operand (mkComputerState m (mkRegisterFile a x0 y0 st sp p))
    = (mkComputerState m' (mkRegisterFile a x0 y0 st
                             (wrapping_sub 8 (wrapping_sub 8 sp 1) 1) p),
       RErr "Jump must have Address-type operand")
    /\ pull_word_from_stack
         (mkComputerState m' (mkRegisterFile a x0 y0 st
                                (wrapping_sub 8 (wrapping_sub 8 sp 1) 1) p))
       = (mkComputerState m' (mkRegisterFile a x0 y0 st sp p), ROk (p - 1)).
Proof.
  intros Hsp Hm Hp Hop.
  destruct (push_word_spec m a x0 y0 st sp p (p - 1) Hsp Hm ltac:(lia))
    as (m' & E & L & O & P).
  exists m'. split; [|apply P].
  cbv beta iota zeta delta [execute_operation execute_jump bind ret lift get_registers
    checked_sub program_counter registers].
  assert (Ep : (p - 1 <? 0) = false) by (apply Z.ltb_ge; lia). rewrite Ep.
  rewrite E.
  destruct operand as [| t | v |]; [reflexivity | destruct (Hop t); reflexivity | reflexivity | reflexivity].
Qed.

Lemma jsr_non_address_pushes_then_fails_witness :
  exists m',
    execute_operation JSR Operand.Implied
      (mkComputerState (repeat 0 512) (mkRegisterFile 0 0 0 0 255 1539))
    = (mkComputerState m' (mkRegisterFile 0 0 0 0
                             (wrapping_sub 8 (wrapping_sub 8 255 1) 1) 1539),
       RErr "Jump must have Address-type operand")
    /\ pull_word_from_stack
         (mkComputerState m' (mkRegisterFile 0 0 0 0
                                (wrapping_sub 8 (wrapping_sub 8 255 1) 1) 1539))
       = (mkComputerState m' (mkRegisterFile 0 0 0 0 255 1539), ROk (1539 - 1)).
Proof.
  apply (jsr_non_address_pushes_then_fails (repeat 0 512) 0 0 0 0 255 1539 Operand.Implied);
    [lia | rewrite repeat_length; lia | lia | intros t H; discriminate H].
Defined.

(** [write_byte_to_memory] at an index inside memory succeeds, keeps the
    memory size, and [get_byte_from_memory] then reads the byte written;
    every other address keeps its content. *)
Theorem write_byte_then_get_byte (m : list Z) (r : RegisterFile) (i v : Z) :
  0 <= i < Z.of_nat (List.length m) ->
  exists m',
    write_byte_to_memory i v (mkComputerState m r) = (mkComputerState m' r, ROk tt)
    /\ List.length m' = List.length m
    /\ get_byte_from_memory i (mkComputerState m' r) = (mkComputerState m' r, ROk v)
    /\ (forall j, j <> i -> mem_get m' j = mem_get m j).
Proof.
  intros Hi. destruct (mem_set_spec m i v Hi) as (m' & E & L & G & O).
  exists m'. unfold write_byte_to_memory, get_byte_from_memory. cbn [memory registers].
  rewrite E, G. auto.
Qed.

Lemma write_byte_then_get_byte_witness :
  exists m',
    write_byte_to_memory 2 9 (mkComputerState [0; 0; 0] (mkRegisterFile 0 0 0 0 0 0))
    = (mkComputerState m' (mkRegisterFile 0 0 0 0 0 0), ROk tt)
    /\ List.length m' = List.length [0; 0; 0]
    /\ get_byte_from_memory 2 (mkComputerState m' (mkRegisterFile 0 0 0 0 0 0))
       = (mkComputerState m' (mkRegisterFile 0 0 0 0 0 0), ROk 9)
    /\ (forall j, j <> 2 -> mem_get m' j = mem_get [0; 0; 0] j).
Proof.
  apply (write_byte_then_get_byte [0; 0; 0] (mkRegisterFile 0 0 0 0 0 0) 2 9).
  simpl. lia.
Defined.

(** Reading or writing a byte at an index outside memory (negative, or at
    least its length) panics and changes nothing. *)
Theorem memory_access_out_of_range_panics (m : list Z) (r : RegisterFile) (i v : Z) :
  ~ (0 <= i < Z.of_nat (List.length m)) ->
  get_byte_from_memory i (mkComputerState m r) = (mkComputerState m r, RPanic)
  /\ write_byte_to_memory i v (mkComputerState m r) = (mkComputerState m r, RPanic).
Proof.
  intros Hi. unfold write_byte_to_memory, get_byte_from_memory. cbn [memory registers].
  rewrite mem_get_none, mem_set_none by exact Hi. split; reflexivity.
Qed.

Lemma memory_access_out_of_range_panics_witness :
  get_byte_from_memory 3 (mkComputerState [0; 0; 0] (mkRegisterFile 0 0 0 0 0 0))
  = (mkComputerState [0; 0; 0] (mkRegisterFile 0 0 0 0 0 0), RPanic)
  /\ write_byte_to_memory 3 5 (mkComputerState [0; 0; 0] (mkRegisterFile 0 0 0 0 0 0))
     = (mkComputerState [0; 0; 0] (mkRegisterFile 0 0 0 0 0 0), RPanic).
Proof.
  apply (memory_access_out_of_range_panics [0; 0; 0] (mkRegisterFile 0 0 0 0 0 0) 3 5).
  simpl. lia.
Defined.

(** [write_word_to_memory] (little-endian) then [get_word_from_memory] at
    the same index returns the word; only the two bytes at [index] and
    [index + 1] change. *)
Theorem write_word_then_get_word (m : list Z) (r : RegisterFile) (i v : Z) :
  0 <= i -> i + 1 < Z.of_nat (List.length m) -> 0 <= v < 65536 ->
  exists m',
    write_word_to_memory i v (mkComputerState m r) = (mkComputerState m' r, ROk tt)
    /\ List.length m' = List.length m
    /\ get_word_from_memory i (mkComputerState m' r) = (mkComputerState m' r, ROk v)
    /\ (forall j, j <> i -> j <> i + 1 -> mem_get m' j = mem_get m j).
Proof.
  intros Hi Hi1 Hv.
  destruct (mem_set_spec m i (v mod 256)) as (m1 & E1 & L1 & G1 & O1); [lia|].
  destruct (mem_set_spec m1 (i + 1) (v / 256)) as (m2 & E2 & L2 & G2 & O2); [lia|].
  exists m2. split; [|split; [congruence|split]].
  - unfold write_word_to_memory, bind, write_byte_to_memory. cbn [memory registers].
    rewrite E1. cbn [memory registers]. rewrite E2. reflexivity.
  - unfold get_word_from_memory, bind, get_byte_from_memory, ret. cbn [memory].
    rewrite O2 by lia. rewrite G1, G2. do 2 f_equal. Z.div_mod_to_equations. lia.
  - intros j Hj Hj1. rewrite O2 by exact Hj1. apply O1. exact Hj.
Qed.

Lemma write_word_then_get_word_witness :
  exists m',
    write_word_to_memory 1 48879 (mkComputerState [0; 0; 0] (mkRegisterFile 0 0 0 0 0 0))
    = (mkComputerState m' (mkRegisterFile 0 0 0 0 0 0), ROk tt)
    /\ List.length m' = List.length [0; 0; 0]
    /\ get_word_from_memory 1 (mkComputerState m' (mkRegisterFile 0 0 0 0 0 0))
       = (mkComputerState m' (mkRegisterFile 0 0 0 0 0 0), ROk 48879)
    /\ (forall j, j <> 1 -> j <> 1 + 1 -> mem_get m' j = mem_get [0; 0; 0] j).
Proof.
  apply (write_word_then_get_word [0; 0; 0] (mkRegisterFile 0 0 0 0 0 0) 1 48879);
    simpl; lia.
Defined.

(** *** Status flags *)

(** [set_status_flag f b] changes only the status byte, which stays a
    byte; [get_status_flag g] afterwards reads [b] when [g] is [f] and the
    old value of [g] otherwise. *)
Theorem set_then_get_status_flag (m : list Z) (a x0 y0 st sp pc : Z)
  (f g : StatusFlag) (b : bool) :
  0 <= st < 256 ->
  (set_status_flag f b ;; get_status_flag g)
    (mkComputerState m (mkRegisterFile a x0 y0 st sp pc))
  = (mkComputerState m (mkRegisterFile a x0 y0 (update_status_bit st f b) sp pc),
     ROk (if flag_index g =? flag_index f then b else status_bit st g))
  /\ 0 <= update_status_bit st f b < 256.
Proof.
  intros Hst.
  destruct (update_status_bit_facts st f b Hst) as (R & T & S).
  split; [|exact R].
  run_monad. rewrite status_bit_testbit by exact R. rewrite T.
  - rewrite S. reflexivity.
  - destruct g; cbn [flag_index]; lia.
Qed.

Lemma set_then_get_status_flag_witness :
  (set_status_flag OVERFLOW true ;; get_status_flag CARRY)
    (mkComputerState [] (mkRegisterFile 0 0 0 1 0 0))
  = (mkComputerState [] (mkRegisterFile 0 0 0 (update_status_bit 1 OVERFLOW true) 0 0),
     ROk (if flag_index CARRY =? flag_index OVERFLOW then true else status_bit 1 CARRY))
  /\ 0 <= update_status_bit 1 OVERFLOW true < 256.
Proof. apply (set_then_get_status_flag [] 0 0 0 1 0 0 OVERFLOW CARRY true). lia. Defined.

(** *** Arithmetic, compare, shift and rotate *)

Definition sbc_check (a v : Z) : bool :=
  forallb (fun c =>
    let d := a - v - (1 - c) in
    let res := wrapping_sub 8 (wrapping_sub 8 a v) (1 - c) in
    let sd := signed_byte a - signed_byte v - (1 - c) in
    (res =? d mod 256)
    && Bool.eqb (negb (a <? v) && negb (wrapping_sub 8 a v <? 1 - c)) (0 <=? d)
    && Bool.eqb (negb (Bool.eqb (negb (is_negative v)) (negb (is_negative a)))
                 && Bool.eqb (negb (is_negative res)) (negb (is_negative v)))
                (negb ((-128 <=? sd) && (sd <=? 127))))
    [0; 1].

Lemma sbc_check_all : all_below 256 (fun a => all_below 256 (sbc_check a)) = true.
Proof. vm_compute. reflexivity. Qed.

Lemma sbc_facts (a v c : Z) :
  0 <= a < 256 -> 0 <= v < 256 -> 0 <= c <= 1 ->
  let d := a - v - (1 - c) in
  let res := wrapping_sub 8 (wrapping_sub 8 a v) (1 - c) in
  let sd := signed_byte a - signed_byte v - (1 - c) in
  res = d mod 256
  /\ negb (a <? v) && negb (wrapping_sub 8 a v <? 1 - c) = (0 <=? d)
  /\ negb (Bool.eqb (negb (is_negative v)) (negb (is_negative a)))
     && Bool.eqb (negb (is_negative res)) (negb (is_negative v))
     = negb ((-128 <=? sd) && (sd <=? 127)).
Proof.
  intros Ha Hv Hc d res sd.
  pose proof (all_below_spec _ _ (all_below_spec _ _ sbc_check_all a Ha) v Hv) as H.
  unfold sbc_check in H. rewrite forallb_forall in H.
  specialize (H c ltac:(simpl; lia)). cbv zeta in H.
  repeat rewrite andb_true_iff in H. destruct H as [[H1 H2] H3].
  apply Z.eqb_eq in H1. apply Bool.eqb_prop in H2, H3.
  split; [exact H1|]. split; [exact H2|exact H3].
Qed.

(** SBC with an immediate byte: the accumulator becomes
    [(a - v - (1 - carry)) mod 256]; Carry is set when no borrow occurs,
    Overflow when the signed difference leaves [-128 .. 127], Zero and
    Negative follow the result; the other flags, X, Y, the stack pointer,
    the program counter and memory are unchanged. *)
Theorem sbc_result_and_flags (m : list Z) (a x0 y0 st sp pc v : Z) :
  0 <= a < 256 -> 0 <= v < 256 -> 0 <= st < 256 ->
  let c := Z.b2z (Z.testbit st 0) in
  let d := a - v - (1 - c) in
  let res := d mod 256 in
  exists st',
    execute_operation SBC (Operand.Immediate v)
      (mkComputerState m (mkRegisterFile a x0 y0 st sp pc))
    = (mkComputerState m (mkRegisterFile res x0 y0 st' sp pc), ROk tt)
    /\ Z.testbit st' 0 = (0 <=? d)
    /\ Z.testbit st' 6 = negb ((-128 <=? signed_byte a - signed_byte v - (1 - c))
                              && (signed_byte a - signed_byte v - (1 - c) <=? 127))
    /\ Z.testbit st' 1 = (res =? 0)
    /\ Z.testbit st' 7 = Z.testbit res 7
    /\ (forall i, 2 <= i < 6 -> Z.testbit st' i = Z.testbit st i).
Proof.
  intros Ha Hv Hst c d res.
  cbn -[Z.testbit update_status_bit status_bit Z.land Z.shiftl Z.add Z.sub Z.modulo Z.ltb
        is_negative Z.b2z Z.eqb wrapping_sub].
  rewrite status_bit_testbit by lia. cbn [flag_index]. fold c.
  assert (Hc : 0 <= c <= 1) by (subst c; destruct (Z.testbit st 0); simpl; lia).
  destruct (sbc_facts a v c Ha Hv Hc) as (E1 & E2 & E3).
  cbv zeta in E1, E2, E3.
  rewrite E3, E2, E1. fold d. fold res.
  assert (Hr : 0 <= res < 256) by (subst res; apply Z.mod_pos_bound; lia).
  rewrite (land_bit res 7) by lia.
  eexists. split; [reflexivity|].
  cbn [status registers with_status with_accumulator].
  split; [status_bits; reflexivity|].
  split; [status_bits; reflexivity|].
  split; [status_bits; reflexivity|].
  split; [status_bits; reflexivity|].
  intros i Hi. status_bits.
  destruct (Z.eqb_spec i 0), (Z.eqb_spec i 1), (Z.eqb_spec i 6), (Z.eqb_spec i 7);
    try lia; reflexivity.
Qed.

Lemma sbc_result_and_flags_witness :
  let c := Z.b2z (Z.testbit 1 0) in
  let d := 80 - 240 - (1 - c) in
  let res := d mod 256 in
  exists st',
    execute_operation SBC (Operand.Immediate 240)
      (mkComputerState [] (mkRegisterFile 80 0 0 1 0 0))
    = (mkComputerState [] (mkRegisterFile res 0 0 st' 0 0), ROk tt)
    /\ Z.testbit st' 0 = (0 <=? d)
    /\ Z.testbit st' 6 = negb ((-128 <=? signed_byte 80 - signed_byte 240 - (1 - c))
                              && (signed_byte 80 - signed_byte 240 - (1 - c) <=? 127))
    /\ Z.testbit st' 1 = (res =? 0)
    /\ Z.testbit st' 7 = Z.testbit res 7
    /\ (forall i, 2 <= i < 6 -> Z.testbit st' i = Z.testbit 1 i).
Proof. apply (sbc_result_and_flags [] 80 0 0 1 0 0 240); lia. Defined.


Lemma compare_facts (r v : Z) :
  0 <= r < 256 -> 0 <= v < 256 ->
  wrapping_sub 8 r v = (r - v) mod 256 /\ 0 <= (r - v) mod 256 < 256
  /\ ((r - v) mod 256 =? 0) = (r =? v).
Proof.
  intros Hr Hv. unfold wrapping_sub. change (2 ^ 8) with 256.
  split; [reflexivity|]. split; [apply Z.mod_pos_bound; lia|].
  destruct (Z.eqb_spec r v) as [->|Hne].
  - rewrite Z.sub_diag. reflexivity.
  - apply Z.eqb_neq. Z.div_mod_to_equations. lia.
Qed.

(** CMP, CPX and CPY with an immediate byte leave every register but the
    status unchanged; Carry is [register >= value], Zero is
    [register = value], Negative is bit 7 of [(register - value) mod 256];
    the flags in between keep their values. *)
Theorem compare_flags (op : Operation) (m : list Z) (a x0 y0 st sp pc v : Z) :
  In op [CMP; CPX; CPY] ->
  0 <= a < 256 -> 0 <= x0 < 256 -> 0 <= y0 < 256 -> 0 <= v < 256 -> 0 <= st < 256 ->
  let reg := match op with CMP => a | CPX => x0 | _ => y0 end in
  exists st',
    execute_operation op (Operand.Immediate v)
      (mkComputerState m (mkRegisterFile a x0 y0 st sp pc))
    = (mkComputerState m (mkRegisterFile a x0 y0 st' sp pc), ROk tt)
    /\ Z.testbit st' 0 = (reg >=? v)
    /\ Z.testbit st' 1 = (reg =? v)
    /\ Z.testbit st' 7 = Z.testbit ((reg - v) mod 256) 7
    /\ (forall i, 2 <= i < 7 -> Z.testbit st' i = Z.testbit st i).
Proof.
  intros Hin Ha Hx Hy Hv Hst reg.
  assert (Hreg : 0 <= reg < 256) by (subst reg; destruct op; lia).
  destruct (compare_facts reg v Hreg Hv) as (E1 & R & E2).
  assert (Hop : execute_operation op (Operand.Immediate v)
                  (mkComputerState m (mkRegisterFile a x0 y0 st sp pc))
                = execute_compare (Operand.Immediate v) reg
                    (mkComputerState m (mkRegisterFile a x0 y0 st sp pc))).
  { simpl in Hin. subst reg.
    destruct Hin as [<-|[<-|[<-|[]]]]; reflexivity. }
  rewrite Hop. clearbody reg.
  cbn -[Z.testbit update_status_bit Z.land Z.shiftl Z.eqb Z.geb wrapping_sub].
  rewrite E1, E2. rewrite (land_bit _ 7) by lia.
  eexists. split; [reflexivity|].
  cbn [status registers with_status].
  split; [status_bits; reflexivity|].
  split; [status_bits; reflexivity|].
  split; [status_bits; reflexivity|].
  intros i Hi. status_bits.
  destruct (Z.eqb_spec i 0), (Z.eqb_spec i 1), (Z.eqb_spec i 7); try lia; reflexivity.
Qed.

Lemma compare_flags_witness :
  let reg := match CPX with CMP => 0 | CPX => 5 | _ => 0 end in
  exists st',
    execute_operation CPX (Operand.Immediate 9)
      (mkComputerState [] (mkRegisterFile 0 5 0 0 0 0))
    = (mkComputerState [] (mkRegisterFile 0 5 0 st' 0 0), ROk tt)
    /\ Z.testbit st' 0 = (reg >=? 9)
    /\ Z.testbit st' 1 = (reg =? 9)
    /\ Z.testbit st' 7 = Z.testbit ((reg - 9) mod 256) 7
    /\ (forall i, 2 <= i < 7 -> Z.testbit st' i = Z.testbit 0 i).
Proof. apply (compare_flags CPX [] 0 5 0 0 0 0 9); [simpl; tauto | lia ..]. Defined.

Lemma rmw_accumulator_spec (op : Operation) (m : list Z) (a x0 y0 st sp pc : Z) :
  In op read_modify_write_ops -> 0 <= a < 256 -> 0 <= st < 256 ->
  let c := Z.b2z (Z.testbit st 0) in
  let res := rmw_result op a c in
  exists st',
    execute_operation op Operand.Accumulator
      (mkComputerState m (mkRegisterFile a x0 y0 st sp pc))
    = (mkComputerState m (mkRegisterFile res x0 y0 st' sp pc), ROk tt)
    /\ 0 <= st' < 256
    /\ Z.testbit st' 1 = (res =? 0)
    /\ Z.testbit st' 7 = Z.testbit res 7
    /\ Z.testbit st' 0 = match rmw_carry_out op a with
                         | Some b => b
                         | None => Z.testbit st 0
                         end
    /\ (forall i, 2 <= i < 7 -> Z.testbit st' i = Z.testbit st i).
Proof.
  intros Hin Hv Hst c res.
  assert (Hc : 0 <= c <= 1) by (subst c; destruct (Z.testbit st 0); simpl; lia).
  destruct (shift_exprs a c Hv Hc) as (E1 & E2 & E3 & E4).
  simpl in Hin.
  repeat destruct Hin as [<-|Hin]; [..|destruct Hin];
  cbn -[Z.testbit update_status_bit status_bit Z.land Z.lor Z.shiftl Z.shiftr Z.add Z.sub Z.mul Z.div Z.modulo Z.b2z Z.eqb Z.pow] in *;
  rewrite ?status_bit_testbit by lia; cbn [flag_index] in *; fold c.
  all: subst res; clearbody c.
  all: rewrite ?E3, ?E4, ?E1, ?E2; unfold wrapping_add, wrapping_sub; change (2 ^ 8) with 256.
  all: rewrite ?land_bit0 by lia.
  all: repeat match goal with
         |- context [negb (Z.land ?w (Z.shiftl 1 ?k) =? 0)] =>
           rewrite (land_bit w k) by (clear -Hv Hc; Z.div_mod_to_equations; lia)
       end.
  all: eexists; split; [reflexivity|].
  all: cbn [status registers with_status rmw_carry_out].
  all: split; [repeat apply update_status_bit_range; lia|].
  all: split; [status_bits; reflexivity|].
  all: split; [status_bits; reflexivity|].
  all: split; [status_bits; reflexivity|].
  all: intros i Hi; status_bits.
  all: destruct (Z.eqb_spec i 0), (Z.eqb_spec i 1), (Z.eqb_spec i 7); try lia; reflexivity.
Qed.

Definition rotate_check (a : Z) : bool :=
  forallb (fun b =>
    let c := Z.b2z b in
    let r := rmw_result ROL a c in
    let r' := rmw_result ROR a c in
    (0 <=? r) && (r <? 256) && (rmw_result ROR r (Z.b2z (Z.testbit a 7)) =? a)
    && Bool.eqb (Z.testbit r 0) b
    && (0 <=? r') && (r' <? 256) && (rmw_result ROL r' (Z.b2z (Z.testbit a 0)) =? a)
    && Bool.eqb (Z.testbit r' 7) b)
    [true; false].

Lemma rotate_check_all : all_below 256 rotate_check = true.
Proof. vm_compute. reflexivity. Qed.

Lemma rotate_facts (a : Z) (b : bool) :
  0 <= a < 256 ->
  let r := rmw_result ROL a (Z.b2z b) in
  let r' := rmw_result ROR a (Z.b2z b) in
  0 <= r < 256 /\ rmw_result ROR r (Z.b2z (Z.testbit a 7)) = a /\ Z.testbit r 0 = b
  /\ 0 <= r' < 256 /\ rmw_result ROL r' (Z.b2z (Z.testbit a 0)) = a /\ Z.testbit r' 7 = b.
Proof.
  intros Ha r r'.
  pose proof (all_below_spec _ _ rotate_check_all a Ha) as H.
  unfold rotate_check in H. rewrite forallb_forall in H.
  specialize (H b ltac:(destruct b; simpl; tauto)). cbv zeta in H.
  repeat rewrite andb_true_iff in H.
  destruct H as [[[[[[[H1 H2] H3] H4] H5] H6] H7] H8].
  apply Z.leb_le in H1, H5. apply Z.ltb_lt in H2, H6. apply Z.eqb_eq in H3, H7.
  apply Bool.eqb_prop in H4, H8.
  repeat split; assumption.
Qed.

(** ROL then ROR on the accumulator (and ROR then ROL) gives back the
    accumulator and the Carry flag it started with. *)
Theorem rotate_left_right_inverse (m : list Z) (a x0 y0 st sp pc : Z) :
  0 <= a < 256 -> 0 <= st < 256 ->
  (exists st',
     (execute_operation ROL Operand.Accumulator ;; execute_operation ROR Operand.Accumulator)
       (mkComputerState m (mkRegisterFile a x0 y0 st sp pc))
     = (mkComputerState m (mkRegisterFile a x0 y0 st' sp pc), ROk tt)
     /\ Z.testbit st' 0 = Z.testbit st 0)
  /\ (exists st',
     (execute_operation ROR Operand.Accumulator ;; execute_operation ROL Operand.Accumulator)
       (mkComputerState m (mkRegisterFile a x0 y0 st sp pc))
     = (mkComputerState m (mkRegisterFile a x0 y0 st' sp pc), ROk tt)
     /\ Z.testbit st' 0 = Z.testbit st 0).
Proof.
  intros Ha Hst.
  destruct (rotate_facts a (Z.testbit st 0) Ha) as (R1 & I1 & B1 & R2 & I2 & B2).
  split.
  - destruct (rmw_accumulator_spec ROL m a x0 y0 st sp pc ltac:(simpl; tauto) Ha Hst)
      as (st1 & E1 & S1 & _ & _ & C1 & _).
    rewrite (bind_ok _ _ _ _ _ E1).
    destruct (rmw_accumulator_spec ROR m _ x0 y0 st1 sp pc ltac:(simpl; tauto) R1 S1)
      as (st2 & E2 & _ & _ & _ & C2 & _).
    cbn [rmw_carry_out] in C1, C2. rewrite C1 in E2. rewrite I1 in E2.
    exists st2. split; [exact E2|]. rewrite C2. exact B1.
  - destruct (rmw_accumulator_spec ROR m a x0 y0 st sp pc ltac:(simpl; tauto) Ha Hst)
      as (st1 & E1 & S1 & _ & _ & C1 & _).
    rewrite (bind_ok _ _ _ _ _ E1).
    destruct (rmw_accumulator_spec ROL m _ x0 y0 st1 sp pc ltac:(simpl; tauto) R2 S1)
      as (st2 & E2 & _ & _ & _ & C2 & _).
    cbn [rmw_carry_out] in C1, C2. rewrite C1 in E2. rewrite I2 in E2.
    exists st2. split; [exact E2|]. rewrite C2. exact B2.
Qed.

Lemma rotate_left_right_inverse_witness :
  (exists st',
     (execute_operation ROL Operand.Accumulator ;; execute_operation ROR Operand.Accumulator)
       (mkComputerState [] (mkRegisterFile 129 0 0 0 0 0))
     = (mkComputerState [] (mkRegisterFile 129 0 0 st' 0 0), ROk tt)
     /\ Z.testbit st' 0 = Z.testbit 0 0)
  /\ (exists st',
     (execute_operation ROR Operand.Accumulator ;; execute_operation ROL Operand.Accumulator)
       (mkComputerState [] (mkRegisterFile 129 0 0 0 0 0))
     = (mkComputerState [] (mkRegisterFile 129 0 0 st' 0 0), ROk tt)
     /\ Z.testbit st' 0 = Z.testbit 0 0).
Proof. apply (rotate_left_right_inverse [] 129 0 0 0 0 0); lia. Defined.

Ltac run_fetch :=
  cbv beta iota zeta delta [bind ret fail panic lift get_registers modify_registers
    memory registers accumulator x y status stack_pointer program_counter
    with_program_counter checked_add get_byte_from_memory get_word_from_memory
    advance_program_counter fetch_operand get_absolute_operand get_immediate_operand
    get_indirect_operand get_indirect_x_operand get_indirect_y_operand
    get_zero_page_operand].

Lemma wrapping_add_sub_1 (v : Z) :
  0 <= v < 256 -> wrapping_sub 8 (wrapping_add 8 v 1) 1 = v.
Proof.
  intros H. unfold wrapping_add, wrapping_sub. change (2 ^ 8) with 256.
  rewrite Zminus_mod_idemp_l. replace (v + 1 - 1) with v by lia.
  apply Z.mod_small. lia.
Qed.

(** INX then DEX, DEX then INX, INY then DEY and DEY then INY each give
    back the register they started from (8-bit wrap-around included); only
    the status may differ. *)
Theorem increment_decrement_inverse (m : list Z) (a x0 y0 st sp pc : Z) :
  0 <= x0 < 256 -> 0 <= y0 < 256 ->
  (exists st', (execute_operation INX Operand.Implied ;; execute_operation DEX Operand.Implied)
                 (mkComputerState m (mkRegisterFile a x0 y0 st sp pc))
               = (mkComputerState m (mkRegisterFile a x0 y0 st' sp pc), ROk tt))
  /\ (exists st', (execute_operation DEX Operand.Implied ;; execute_operation INX Operand.Implied)
                 (mkComputerState m (mkRegisterFile a x0 y0 st sp pc))
               = (mkComputerState m (mkRegisterFile a x0 y0 st' sp pc), ROk tt))
  /\ (exists st', (execute_operation INY Operand.Implied ;; execute_operation DEY Operand.Implied)
                 (mkComputerState m (mkRegisterFile a x0 y0 st sp pc))
               = (mkComputerState m (mkRegisterFile a x0 y0 st' sp pc), ROk tt))
  /\ (exists st', (execute_operation DEY Operand.Implied ;; execute_operation INY Operand.Implied)
                 (mkComputerState m (mkRegisterFile a x0 y0 st sp pc))
               = (mkComputerState m (mkRegisterFile a x0 y0 st' sp pc), ROk tt)).
Proof.
  intros Hx Hy. run_monad.
  rewrite !wrapping_add_sub_1, !wrapping_sub_add_1 by assumption.
  repeat split; eexists; reflexivity.
Qed.

Lemma increment_decrement_inverse_witness :
  (exists st', (execute_operation INX Operand.Implied ;; execute_operation DEX Operand.Implied)
                 (mkComputerState [] (mkRegisterFile 0 255 0 0 0 0))
               = (mkComputerState [] (mkRegisterFile 0 255 0 st' 0 0), ROk tt))
  /\ (exists st', (execute_operation DEX Operand.Implied ;; execute_operation INX Operand.Implied)
                 (mkComputerState [] (mkRegisterFile 0 255 0 0 0 0))
               = (mkComputerState [] (mkRegisterFile 0 255 0 st' 0 0), ROk tt))
  /\ (exists st', (execute_operation INY Operand.Implied ;; execute_operation DEY Operand.Implied)
                 (mkComputerState [] (mkRegisterFile 0 255 0 0 0 0))
               = (mkComputerState [] (mkRegisterFile 0 255 0 st' 0 0), ROk tt))
  /\ (exists st', (execute_operation DEY Operand.Implied ;; execute_operation INY Operand.Implied)
                 (mkComputerState [] (mkRegisterFile 0 255 0 0 0 0))
               = (mkComputerState [] (mkRegisterFile 0 255 0 st' 0 0), ROk tt)).
Proof. apply (increment_decrement_inverse [] 0 255 0 0 0 0); lia. Defined.

(** *** Branches and the step loop *)

(** A branch whose condition does not hold changes nothing and succeeds,
    whatever its operand (it is not even read). *)
Theorem branch_not_taken (op : Operation) (operand : Operand.Operand) (m : list Z)
  (a x0 y0 st sp pc : Z) :
  In op [BCC; BCS; BEQ; BNE; BMI; BPL; BVC; BVS] -> 0 <= st < 256 ->
  branch_condition_holds op st = false ->
  execute_operation op operand (mkComputerState m (mkRegisterFile a x0 y0 st sp pc))
  = (mkComputerState m (mkRegisterFile a x0 y0 st sp pc), ROk tt).
Proof.
  intros Hin Hst Hc. simpl in Hin.
  repeat destruct Hin as [<-|Hin]; [..|destruct Hin]; run_monad;
    rewrite status_bit_testbit by exact Hst; cbn [flag_index branch_condition_holds] in *;
    rewrite ?negb_false_iff in Hc; rewrite Hc; reflexivity.
Qed.

Lemma branch_not_taken_witness :
  execute_operation BEQ Operand.Implied (mkComputerState [] (mkRegisterFile 0 0 0 0 0 0))
  = (mkComputerState [] (mkRegisterFile 0 0 0 0 0 0), ROk tt).
Proof.
  apply (branch_not_taken BEQ Operand.Implied [] 0 0 0 0 0 0);
    [simpl; tauto | lia | reflexivity].
Defined.

(** [multiple_steps s (n + k)] runs [n] steps and then [k] more from the
    state reached; an error or panic in the first [n] steps is the
    result. *)
Theorem multiple_steps_add (s : ComputerState) (n k : nat) :
  multiple_steps s (n + k)
  = match multiple_steps s n with
    | ROk s' => multiple_steps s' k
    | RErr e => RErr e
    | RPanic => RPanic
    end.
Proof.
  revert s. induction n as [|n IH]; intros s; [reflexivity|].
  simpl. destruct (step s) as [s'| e |]; [apply IH | reflexivity | reflexivity].
Qed.

(** A machine from [initialize] (all memory zero) cannot run: opcode 0x00
    decodes to BRK, which is unimplemented, so any positive number of steps
    fails with "Unimplemented operation". *)
Theorem initialize_cannot_step (n : nat) :
  (0 < n)%nat -> multiple_steps initialize n = RErr "Unimplemented operation".
Proof.
  intros Hn. destruct n as [|n]; [lia|]. simpl.
  replace (step initialize) with (@RErr ComputerState "Unimplemented operation")
    by (vm_compute; reflexivity).
  reflexivity.
Qed.

Lemma initialize_cannot_step_witness :
  multiple_steps initialize 3 = RErr "Unimplemented operation".
Proof. apply (initialize_cannot_step 3). lia. Defined.

(** *** BIT, logical operations and loads *)

Ltac run_exec :=
  cbv beta iota zeta delta [bind ret fail panic lift get_registers modify_registers
    memory registers accumulator x y status stack_pointer program_counter
    with_accumulator with_x with_y with_status with_stack_pointer with_program_counter
    set_status_flag set_zero_and_negative_flags
    execute_operation execute_and execute_bit_test execute_exclusive_or
    execute_load_accumulator execute_load_x execute_load_y execute_inclusive_or].

Definition logical_check : bool :=
  all_below 256 (fun a => all_below 256 (fun v =>
    (Z.land a v <? 256) && (Z.lor a v <? 256) && (Z.lxor a v <? 256)
    && (0 <=? Z.land a v) && (0 <=? Z.lor a v) && (0 <=? Z.lxor a v))).

Lemma logical_check_all : logical_check = true.
Proof. vm_compute. reflexivity. Qed.

Lemma logical_ranges (a v : Z) :
  0 <= a < 256 -> 0 <= v < 256 ->
  0 <= Z.land a v < 256 /\ 0 <= Z.lor a v < 256 /\ 0 <= Z.lxor a v < 256.
Proof.
  intros Ha Hv.
  pose proof (all_below_spec _ _ (all_below_spec _ _ logical_check_all a Ha) v Hv) as H.
  cbv beta in H. rewrite !andb_true_iff, !Z.ltb_lt, !Z.leb_le in H. lia.
Qed.

(** BIT with an operand whose value is [v]: Negative and Overflow become
    bits 7 and 6 of [v], Zero is set when [a & v = 0]; the accumulator and
    every other register and flag are unchanged. *)
Theorem bit_test_flags (operand : Operand.Operand) (m : list Z) (a x0 y0 st sp pc v : Z) :
  0 <= a < 256 -> 0 <= v < 256 -> 0 <= st < 256 ->
  get_operand_value operand (mkComputerState m (mkRegisterFile a x0 y0 st sp pc))
  = (mkComputerState m (mkRegisterFile a x0 y0 st sp pc), ROk v) ->
  exists st',
    execute_operation BIT operand (mkComputerState m (mkRegisterFile a x0 y0 st sp pc))
    = (mkComputerState m (mkRegisterFile a x0 y0 st' sp pc), ROk tt)
    /\ Z.testbit st' 7 = Z.testbit v 7
    /\ Z.testbit st' 6 = Z.testbit v 6
    /\ Z.testbit st' 1 = (Z.land a v =? 0)
    /\ (forall i, 0 <= i < 6 -> i <> 1 -> Z.testbit st' i = Z.testbit st i).
Proof.
  intros Ha Hv Hst Hget. run_exec. rewrite Hget.
  rewrite (land_bit v 7), (land_bit v 6) by lia.
  eexists. split; [reflexivity|]. cbn [status registers with_status].
  split; [status_bits; reflexivity|].
  split; [status_bits; reflexivity|].
  split; [status_bits; reflexivity|].
  intros i Hi Hi1. status_bits.
  destruct (Z.eqb_spec i 1), (Z.eqb_spec i 6), (Z.eqb_spec i 7); try lia; reflexivity.
Qed.

Lemma bit_test_flags_witness :
  exists st',
    execute_operation BIT (Operand.Address 1)
      (mkComputerState [0; 192] (mkRegisterFile 63 0 0 0 0 0))
    = (mkComputerState [0; 192] (mkRegisterFile 63 0 0 st' 0 0), ROk tt)
    /\ Z.testbit st' 7 = Z.testbit 192 7
    /\ Z.testbit st' 6 = Z.testbit 192 6
    /\ Z.testbit st' 1 = (Z.land 63 192 =? 0)
    /\ (forall i, 0 <= i < 6 -> i <> 1 -> Z.testbit st' i = Z.testbit 0 i).
Proof.
  apply (bit_test_flags (Operand.Address 1) [0; 192] 63 0 0 0 0 0 192);
    [lia | lia | lia | reflexivity].
Defined.

(** AND, ORA and EOR put the bitwise and, or, exclusive or of the
    accumulator and the operand value in the accumulator (a byte again),
    set Zero and Negative from it and change nothing else. *)
Theorem logical_operation (op : Operation) (operand : Operand.Operand) (m : list Z)
  (a x0 y0 st sp pc v : Z) :
  In op [AND; ORA; EOR] ->
  0 <= a < 256 -> 0 <= v < 256 -> 0 <= st < 256 ->
  get_operand_value operand (mkComputerState m (mkRegisterFile a x0 y0 st sp pc))
  = (mkComputerState m (mkRegisterFile a x0 y0 st sp pc), ROk v) ->
  let res := match op with AND => Z.land a v | ORA => Z.lor a v | _ => Z.lxor a v end in
  exists st',
    execute_operation op operand (mkComputerState m (mkRegisterFile a x0 y0 st sp pc))
    = (mkComputerState m (mkRegisterFile res x0 y0 st' sp pc), ROk tt)
    /\ 0 <= res < 256
    /\ Z.testbit st' 1 = (res =? 0)
    /\ Z.testbit st' 7 = Z.testbit res 7
    /\ (forall i, 0 <= i < 7 -> i <> 1 -> Z.testbit st' i = Z.testbit st i).
Proof.
  intros Hin Ha Hv Hst Hget res.
  destruct (logical_ranges a v Ha Hv) as (R1 & R2 & R3).
  assert (Hres : 0 <= res < 256) by (subst res; destruct op; assumption).
  simpl in Hin. repeat destruct Hin as [<-|Hin]; [..|destruct Hin]; run_exec; rewrite Hget;
    subst res; rewrite (land_bit _ 7) by lia.
  all: eexists; split; [reflexivity|]; cbn [status registers with_status].
  all: split; [assumption|].
  all: split; [status_bits; reflexivity|].
  all: split; [status_bits; reflexivity|].
  all: intros i Hi Hi1; status_bits.
  all: destruct (Z.eqb_spec i 1), (Z.eqb_spec i 7); try lia; reflexivity.
Qed.

Lemma logical_operation_witness :
  let res := match EOR with AND => Z.land 15 255 | ORA => Z.lor 15 255 | _ => Z.lxor 15 255 end in
  exists st',
    execute_operation EOR (Operand.Immediate 255)
      (mkComputerState [] (mkRegisterFile 15 0 0 0 0 0))
    = (mkComputerState [] (mkRegisterFile res 0 0 st' 0 0), ROk tt)
    /\ 0 <= res < 256
    /\ Z.testbit st' 1 = (res =? 0)
    /\ Z.testbit st' 7 = Z.testbit res 7
    /\ (forall i, 0 <= i < 7 -> i <> 1 -> Z.testbit st' i = Z.testbit 0 i).
Proof.
  apply (logical_operation EOR (Operand.Immediate 255) [] 15 0 0 0 0 0 255);
    [simpl; tauto | lia | lia | lia | reflexivity].
Defined.

(** LDA, LDX and LDY put the operand value in their register, set Zero
    and Negative from it and change nothing else. *)
Theorem load_register (op : Operation) (operand : Operand.Operand) (m : list Z)
  (a x0 y0 st sp pc v : Z) :
  In op [LDA; LDX; LDY] ->
  0 <= v < 256 -> 0 <= st < 256 ->
  get_operand_value operand (mkComputerState m (mkRegisterFile a x0 y0 st sp pc))
  = (mkComputerState m (mkRegisterFile a x0 y0 st sp pc), ROk v) ->
  exists st',
    execute_operation op operand (mkComputerState m (mkRegisterFile a x0 y0 st sp pc))
    = (mkComputerState m (match op with
                          | LDA => mkRegisterFile v x0 y0 st' sp pc
                          | LDX => mkRegisterFile a v y0 st' sp pc
                          | _ => mkRegisterFile a x0 v st' sp pc
                          end), ROk tt)
    /\ Z.testbit st' 1 = (v =? 0)
    /\ Z.testbit st' 7 = Z.testbit v 7
    /\ (forall i, 0 <= i < 7 -> i <> 1 -> Z.testbit st' i = Z.testbit st i).
Proof.
  intros Hin Hv Hst Hget.
  simpl in Hin. repeat destruct Hin as [<-|Hin]; [..|destruct Hin]; run_exec; rewrite Hget;
    rewrite (land_bit _ 7) by lia.
  all: eexists; split; [reflexivity|]; cbn [status registers with_status].
  all: split; [status_bits; reflexivity|].
  all: split; [status_bits; reflexivity|].
  all: intros i Hi Hi1; status_bits.
  all: destruct (Z.eqb_spec i 1), (Z.eqb_spec i 7); try lia; reflexivity.
Qed.

Lemma load_register_witness :
  exists st',
    execute_operation LDX (Operand.Immediate 0)
      (mkComputerState [] (mkRegisterFile 1 2 3 128 0 0))
    = (mkComputerState [] (match LDX with
                           | LDA => mkRegisterFile 0 2 3 st' 0 0
                           | LDX => mkRegisterFile 1 0 3 st' 0 0
                           | _ => mkRegisterFile 1 2 0 st' 0 0
                           end), ROk tt)
    /\ Z.testbit st' 1 = (0 =? 0)
    /\ Z.testbit st' 7 = Z.testbit 0 7
    /\ (forall i, 0 <= i < 7 -> i <> 1 -> Z.testbit st' i = Z.testbit 128 i).
Proof.
  apply (load_register LDX (Operand.Immediate 0) [] 1 2 3 128 0 0 0);
    [simpl; tauto | lia | lia | reflexivity].
Defined.

(** *** Operand resolution *)

Lemma land_255_small (v : Z) : 0 <= v < 256 -> Z.land v 255 = v.
Proof.
  intros H. change 255 with (Z.ones 8). rewrite Z.land_ones by lia.
  apply Z.mod_small. exact H.
Qed.

(** Absolute, AbsoluteX and AbsoluteY read a little-endian base address
    after the opcode and advance the program counter by two; the operand is
    the base plus X, Y or 0, and the fetch panics, with the counter already
    advanced, when that sum does not fit in 16 bits. *)
Theorem fetch_absolute_indexed (mode : OperandMode) (m : list Z)
  (a x0 y0 st sp p lo hi : Z) :
  In mode [Absolute; AbsoluteX; AbsoluteY] ->
  0 <= p -> p + 2 < 65536 ->
  mem_get m p = Some lo -> mem_get m (p + 1) = Some hi ->
  let idx := match mode with AbsoluteX => x0 | AbsoluteY => y0 | _ => 0 end in
  fetch_operand mode (mkComputerState m (mkRegisterFile a x0 y0 st sp p))
  = (mkComputerState m (mkRegisterFile a x0 y0 st sp (p + 2)),
     if lo + 256 * hi + idx <? 65536 then ROk (Operand.Address (lo + 256 * hi + idx))
     else RPanic).
Proof.
  intros Hin Hp Hp2 Hlo Hhi idx. subst idx.
  simpl in Hin. repeat destruct Hin as [<-|Hin]; [..|destruct Hin]; run_fetch;
    rewrite Hlo, Hhi; change (2 ^ 16) with 65536;
    replace (p + 2 <? 65536) with true by (symmetry; apply Z.ltb_lt; lia);
    match goal with |- context [if ?c then _ else _] => destruct c end; reflexivity.
Qed.

Lemma fetch_absolute_indexed_witness :
  let idx := match AbsoluteX with AbsoluteX => 32 | AbsoluteY => 0 | _ => 0 end in
  fetch_operand AbsoluteX (mkComputerState [240; 255] (mkRegisterFile 0 32 0 0 0 0))
  = (mkComputerState [240; 255] (mkRegisterFile 0 32 0 0 0 (0 + 2)),
     if 240 + 256 * 255 + idx <? 65536 then ROk (Operand.Address (240 + 256 * 255 + idx))
     else RPanic).
Proof.
  apply (fetch_absolute_indexed AbsoluteX [240; 255] 0 32 0 0 0 0 240 255);
    [simpl; tauto | lia | lia | reflexivity | reflexivity].
Defined.

(** ZeroPage, ZeroPageX and ZeroPageY read the byte after the opcode; when
    it plus the index fits in a byte the operand is that sum and the
    counter advances by one; otherwise the [u8] addition panics before the
    counter moves, so the [& 0xff] wrap-around never takes effect. *)
Theorem fetch_zero_page_indexed (mode : OperandMode) (m : list Z)
  (a x0 y0 st sp p b : Z) :
  In mode [ZeroPage; ZeroPageX; ZeroPageY] ->
  0 <= x0 -> 0 <= y0 -> 0 <= p -> p + 1 < 65536 -> mem_get m p = Some b -> 0 <= b ->
  let idx := match mode with ZeroPageX => x0 | ZeroPageY => y0 | _ => 0 end in
  fetch_operand mode (mkComputerState m (mkRegisterFile a x0 y0 st sp p))
  = if b + idx <? 256
    then (mkComputerState m (mkRegisterFile a x0 y0 st sp (p + 1)),
          ROk (Operand.Address (b + idx)))
    else (mkComputerState m (mkRegisterFile a x0 y0 st sp p), RPanic).
Proof.
  intros Hin Hx Hy Hp Hp1 Hb Hb0 idx. subst idx.
  simpl in Hin. repeat destruct Hin as [<-|Hin]; [..|destruct Hin]; run_fetch;
    rewrite Hb; change (2 ^ 8) with 256; change (2 ^ 16) with 65536;
    replace (p + 1 <? 65536) with true by (symmetry; apply Z.ltb_lt; lia);
    match goal with |- context [?e <? 256] => destruct (Z.ltb_spec e 256) end;
    try reflexivity; rewrite land_255_small by lia; reflexivity.
Qed.

Lemma fetch_zero_page_indexed_witness :
  let idx := match ZeroPageX with ZeroPageX => 32 | ZeroPageY => 0 | _ => 0 end in
  fetch_operand ZeroPageX (mkComputerState [240] (mkRegisterFile 0 32 0 0 0 0))
  = if 240 + idx <? 256
    then (mkComputerState [240] (mkRegisterFile 0 32 0 0 0 (0 + 1)),
          ROk (Operand.Address (240 + idx)))
    else (mkComputerState [240] (mkRegisterFile 0 32 0 0 0 0), RPanic).
Proof.
  apply (fetch_zero_page_indexed ZeroPageX [240] 0 32 0 0 0 0 240);
    [simpl; tauto | lia | lia | lia | lia | reflexivity | lia].
Defined.

(** IndirectX reads the byte [b] after the opcode and the little-endian
    pointer at [(b + X) & 0xff] and the address after it (for
    [(b + X) & 0xff = 0xff] that is 0x100, outside the zero page); the
    counter advances by one. *)
Theorem fetch_indirect_x (m : list Z) (a x0 y0 st sp p b lo hi : Z) :
  0 <= p -> p + 1 < 65536 -> mem_get m p = Some b ->
  mem_get m (Z.land (b + x0) 255) = Some lo ->
  mem_get m (Z.land (b + x0) 255 + 1) = Some hi ->
  fetch_operand IndirectX (mkComputerState m (mkRegisterFile a x0 y0 st sp p))
  = (mkComputerState m (mkRegisterFile a x0 y0 st sp (p + 1)),
     ROk (Operand.Address (lo + 256 * hi))).
Proof.
  intros Hp Hp1 Hb Hlo Hhi. run_fetch.
  rewrite Hb, Hlo, Hhi. change (2 ^ 16) with 65536.
  replace (p + 1 <? 65536) with true by (symmetry; apply Z.ltb_lt; lia).
  reflexivity.
Qed.

Lemma fetch_indirect_x_witness :
  fetch_operand IndirectX
    (mkComputerState (254 :: repeat 0 255 ++ [7]) (mkRegisterFile 0 1 0 0 0 0))
  = (mkComputerState (254 :: repeat 0 255 ++ [7]) (mkRegisterFile 0 1 0 0 0 (0 + 1)),
     ROk (Operand.Address (0 + 256 * 7))).
Proof.
  apply (fetch_indirect_x (254 :: repeat 0 255 ++ [7]) 0 1 0 0 0 0 254 0 7);
    [lia | lia | reflexivity | reflexivity | reflexivity].
Defined.

(** Indirect reads the little-endian pointer after the opcode and the
    little-endian address stored at the pointer and the byte after it (no
    wrap-around within the page); the counter advances by two. *)
Theorem fetch_indirect (m : list Z) (a x0 y0 st sp p l1 h1 lo hi : Z) :
  0 <= p -> p + 2 < 65536 ->
  mem_get m p = Some l1 -> mem_get m (p + 1) = Some h1 ->
  mem_get m (l1 + 256 * h1) = Some lo -> mem_get m (l1 + 256 * h1 + 1) = Some hi ->
  fetch_operand Indirect (mkComputerState m (mkRegisterFile a x0 y0 st sp p))
  = (mkComputerState m (mkRegisterFile a x0 y0 st sp (p + 2)),
     ROk (Operand.Address (lo + 256 * hi))).
Proof.
  intros Hp Hp2 H1 H2 H3 H4. run_fetch.
  rewrite H1, H2, H3, H4. change (2 ^ 16) with 65536.
  replace (p + 2 <? 65536) with true by (symmetry; apply Z.ltb_lt; lia).
  reflexivity.
Qed.

Lemma fetch_indirect_witness :
  fetch_operand Indirect
    (mkComputerState (255 :: 0 :: repeat 7 255) (mkRegisterFile 0 0 0 0 0 0))
  = (mkComputerState (255 :: 0 :: repeat 7 255) (mkRegisterFile 0 0 0 0 0 (0 + 2)),
     ROk (Operand.Address (7 + 256 * 7))).
Proof.
  apply (fetch_indirect (255 :: 0 :: repeat 7 255) 0 0 0 0 0 0 255 0 7 7);
    [lia | lia | reflexivity | reflexivity | reflexivity | reflexivity].
Defined.

(** *** Cycle counts and mnemonics *)

(** [calculate_cycles] has a timing for an instruction exactly when the
    instruction is in [INSTRUCTION_TUPLES], i.e. has an opcode. *)
Theorem calculate_cycles_defined_on_table (i : Instruction) :
  (exists c, calculate_cycles i = ROk c) <-> (exists b, instruction_to_bytecode i = ROk b).
Proof.
  destruct i as [mode op]; destruct mode, op; vm_compute; split; intros H.
  all: try (eexists; reflexivity).
  all: destruct H as [? H]; discriminate H.
Qed.

(** Every timing [calculate_cycles] returns is between 1 and 7 cycles, and
    only AbsoluteX, AbsoluteY and IndirectY instructions cost extra on a
    page crossing. *)
Theorem calculate_cycles_range (mode : OperandMode) (op : Operation) (c : CycleCount) :
  calculate_cycles (Instr mode op) = ROk c ->
  1 <= cycle_count c <= 7
  /\ (page_boundary_costs_extra c = true ->
      mode = AbsoluteX \/ mode = AbsoluteY \/ mode = IndirectY).
Proof.
  intros H; destruct mode, op; vm_compute in H; try discriminate H; injection H as <-;
    cbn [cycle_count page_boundary_costs_extra]; (split; [lia|]);
    intros E; first [discriminate E | left; reflexivity | right; left; reflexivity | right; right; reflexivity].
Qed.

Lemma calculate_cycles_range_witness :
  1 <= cycle_count (cycles_with_extra_cost 4) <= 7
  /\ (page_boundary_costs_extra (cycles_with_extra_cost 4) = true ->
      AbsoluteX = AbsoluteX \/ AbsoluteX = AbsoluteY \/ AbsoluteX = IndirectY).
Proof. apply (calculate_cycles_range AbsoluteX LDA (cycles_with_extra_cost 4)). reflexivity. Defined.

Lemma Operation_from_str_cases (s : string) :
  Operation_from_str s = RErr "Couldn't find matching instruction"
  \/ exists op, Operation_from_str s = ROk op.
Proof.
  unfold Operation_from_str.
  repeat match goal with
  | |- context [String.eqb s ?lit] =>
      destruct (String.eqb s lit); [right; eexists; reflexivity|]
  end.
  left; reflexivity.
Qed.

(** [Operation::from_str] accepts exactly the 56 three-letter mnemonics,
    each naming its own operation, and refuses every other string with
    "Couldn't find matching instruction". *)
Theorem Operation_from_str_names (s : string) :
  (forall op, Operation_from_str s = ROk op <-> s = operation_name op)
  /\ (Operation_from_str s = RErr "Couldn't find matching instruction"
      <-> forall op, s <> operation_name op).
Proof.
  assert (P : forall op, Operation_from_str s = ROk op <-> s = operation_name op).
  { intros op. split.
    - unfold Operation_from_str.
      repeat match goal with
      | |- context [String.eqb s ?lit] =>
          destruct (String.eqb_spec s lit) as [->|_];
          [intros H; injection H as <-; reflexivity|]
      end.
      intros H; discriminate H.
    - intros ->. destruct op; reflexivity. }
  split; [exact P|]. split.
  - intros H op E. apply P in E. congruence.
  - intros H. destruct (Operation_from_str_cases s) as [E|[op E]]; [exact E|].
    apply P in E. destruct (H op E).
Qed.
